(** * Consistent Attachments and Links: the rename cascade and the attachment collector

    A shallow embedding of [src/files-handler.ts] (class [FilesHandler]) and of
    the rename/delete handler ([handleRename], [fillRenameMap], [processRename])
    over an explicit model of the host vault, followed by the properties of the
    specification that these functions decide.

    Conventions.
    - A path is a [string], slash separated and case sensitive, as in the source.
    - A [TFile] handle is represented by the path it currently has.
    - The vault is a finite map from file paths to contents and a finite set of
      folder paths; the root folder ["/"] always exists and is not stored.
    - Asynchronous functions become computations in the monad [M]: a state
      transformer over [State] that may throw. *)

From Stdlib Require Import Ascii.
From stdpp Require Import gmap strings list pretty.



(** ** Strings *)

Module Str.

Definition startsWith (s pre : string) : bool := String.prefix pre s.

Fixpoint slice (n : nat) (s : string) : string :=
  match n, s with
  | 0, _ => s
  | S _, "" => ""
  | S k, String _ r => slice k r
  end.

Definition lowerChar (c : ascii) : ascii :=
  let n := nat_of_ascii c in
  if (65 <=? n)%nat && (n <=? 90)%nat then ascii_of_nat (n + 32) else c.

Fixpoint toLowerCase (s : string) : string :=
  match s with
  | "" => ""
  | String c r => String (lowerChar c) (toLowerCase r)
  end.

Fixpoint splitOn (sep : ascii) (s : string) : list string :=
  match s with
  | "" => [""]
  | String c r =>
      if Ascii.eqb c sep then "" :: splitOn sep r
      else match splitOn sep r with
           | h :: t => String c h :: t
           | [] => [String c ""]
           end
  end.

Fixpoint joinWith (sep : string) (l : list string) : string :=
  match l with
  | [] => ""
  | [x] => x
  | x :: r => x +:+ sep +:+ joinWith sep r
  end.

(** JavaScript truthiness of a string: only the empty string is falsy. *)
Definition truthy (s : string) : bool := negb (String.eqb s "").

End Str.

(** ** Paths (the POSIX path functions the source imports) *)

Module Path.

Definition segments (p : string) : list string := Str.splitOn "/"%char p.

Definition isAbsolute (p : string) : bool := Str.startsWith p "/".

(** One step of [normalize] on the stack of segments kept so far
    (innermost segment first). *)
Definition normStep (abs : bool) (stack : list string) (seg : string) : list string :=
  if String.eqb seg "" || String.eqb seg "." then stack
  else if String.eqb seg ".." then
    match stack with
    | top :: rest => if String.eqb top ".." then seg :: stack else rest
    | [] => if abs then [] else [seg]
    end
  else seg :: stack.

Definition normSegments (abs : bool) (segs : list string) : list string :=
  rev (fold_left (normStep abs) segs []).

Definition normalize (p : string) : string :=
  if String.eqb p "" then "."
  else
    let abs := isAbsolute p in
    let body := Str.joinWith "/" (normSegments abs (segments p)) in
    let trailing := Str.startsWith (String.rev p) "/" in
    let body := if String.eqb body "" then (if abs then "" else ".")
                else if trailing then body +:+ "/" else body in
    if abs then "/" +:+ body else body.

Definition join (parts : list string) : string :=
  let nonEmpty := filter (λ s, Str.truthy s = true) parts in
  match nonEmpty with
  | [] => "."
  | _ => normalize (Str.joinWith "/" nonEmpty)
  end.

Fixpoint dropWhileEmpty (l : list string) : list string :=
  match l with
  | "" :: r => dropWhileEmpty r
  | _ => l
  end.

Definition dirname (p : string) : string :=
  if String.eqb p "" then "."
  else
    match dropWhileEmpty (rev (segments p)) with
    | [] => "/"
    | [_] => "."
    | _ :: rest =>
        match dropWhileEmpty rest with
        | [] => "/"
        | _ => Str.joinWith "/" (rev rest)
        end
    end.

Fixpoint stripCommon (a b : list string) : list string * list string :=
  match a, b with
  | x :: a', y :: b' => if String.eqb x y then stripCommon a' b' else (a, b)
  | _, _ => (a, b)
  end.

(** [relative from to]; both arguments are resolved against the root. *)
Definition relative (from to : string) : string :=
  let f := normSegments true (segments from) in
  let t := normSegments true (segments to) in
  let '(f', t') := stripCommon f t in
  Str.joinWith "/" (map (λ _, "..") f' ++ t').

(** Fields of a [TFile], computed from its path as the host does. *)
Definition name (p : string) : string := List.last (segments p) "".

Definition extension (p : string) : string :=
  match rev (Str.splitOn "."%char (name p)) with
  | ext :: _ :: _ => ext
  | _ => ""
  end.

Definition basename (p : string) : string :=
  match rev (Str.splitOn "."%char (name p)) with
  | _ :: (_ :: _) as rest => Str.joinWith "." (rev rest)
  | _ => name p
  end.

(** Path of [file.parent]: the root folder is ["/"]. *)
Definition parent (p : string) : string :=
  match rev (segments p) with
  | _ :: (_ :: _) as rest => Str.joinWith "/" (rev rest)
  | _ => "/"
  end.

(** The chain [parent p], [parent (parent p)], ... up to, excluding, the root. *)
Fixpoint ancestorsFrom (revSegs : list string) : list string :=
  match revSegs with
  | [] => []
  | _ :: rest =>
      match rest with
      | [] => []
      | _ => Str.joinWith "/" (rev rest) :: ancestorsFrom rest
      end
  end.

Definition ancestors (p : string) : list string := ancestorsFrom (rev (segments p)).

(** The root folder, under the names the host accepts for it. *)
Definition isRoot (d : string) : bool :=
  String.eqb d "/" || String.eqb d "" || String.eqb d ".".

(** A folder followed by its ancestors, innermost first, the root left out. *)
Definition hierarchy (d : string) : list string :=
  if isRoot d then [] else d :: filter (λ x, isRoot x = false) (ancestors d).

End Path.

(** ** The host vault *)

Record Vault := mkVault {
  files : gmap string string;
  folders : gset string
}.

(** Console levels; [Notice] stands for the user-visible [new Notice(...)]. *)
Inductive Level := Debug | Log | Warn | Error | Notice.

(** The mutable world of the plugin: the vault, the module-level [renameMap]
    (a JavaScript [Map], kept in insertion order) and the console. *)
Record State := mkState {
  vault : Vault;
  renameMap : list (string * string);
  console : list (Level * string)
}.

(** The outcome of a computation: a value, a thrown error, or a recursion
    that was cut off by its fuel (only [deleteEmptyFolders] recurses). *)
Inductive Res (A : Type) :=
  | Ok (a : A)
  | Throw (msg : string)
  | OutOfFuel.
Arguments Ok {A} a.
Arguments Throw {A} msg.
Arguments OutOfFuel {A}.

Definition M (A : Type) : Type := State → Res A * State.

Global Instance M_ret : MRet M := λ A a st, (Ok a, st).
Global Instance M_bind : MBind M := λ A B f m st,
  match m st with
  | (Ok a, st') => f a st'
  | (Throw e, st') => (Throw e, st')
  | (OutOfFuel, st') => (OutOfFuel, st')
  end.

Definition throw {A} (msg : string) : M A := λ st, (Throw msg, st).
Definition getVault : M Vault := λ st, (Ok (vault st), st).
Definition putVault (v : Vault) : M unit :=
  λ st, (Ok (), mkState v (renameMap st) (console st)).
Definition getRenameMap : M (list (string * string)) := λ st, (Ok (renameMap st), st).
Definition putRenameMap (m : list (string * string)) : M unit :=
  λ st, (Ok (), mkState (vault st) m (console st)).
Definition logMsg (l : Level) (msg : string) : M unit :=
  λ st, (Ok (), mkState (vault st) (renameMap st) (console st ++ [(l, msg)])).

(** [try { body } finally { fin }] *)
Definition tryFinally {A} (body : M A) (fin : M unit) : M A := λ st,
  match body st with
  | (r, st1) =>
      match fin st1 with
      | (Ok _, st2) => (r, st2)
      | (Throw e, st2) => (Throw e, st2)
      | (OutOfFuel, st2) => (OutOfFuel, st2)
      end
  end.

(** [try { body } catch (e) { handler(e) }] *)
Definition tryCatch {A} (body : M A) (handler : string → M A) : M A := λ st,
  match body st with
  | (Throw e, st1) => handler e st1
  | other => other
  end.

(** [for (const x of xs) { await body(x); }] *)
Fixpoint forEach {A} (xs : list A) (body : A → M unit) : M unit :=
  match xs with
  | [] => mret ()
  | x :: r => body x ;; forEach r body
  end.

(** *** The JavaScript [Map] used as rename map *)

Module JsMap.

Fixpoint set (k v : string) (m : list (string * string)) : list (string * string) :=
  match m with
  | [] => [(k, v)]
  | (k', v') :: r => if String.eqb k' k then (k, v) :: r else (k', v') :: set k v r
  end.

Fixpoint get (k : string) (m : list (string * string)) : option string :=
  match m with
  | [] => None
  | (k', v') :: r => if String.eqb k' k then Some v' else get k r
  end.

Definition delete (k : string) (m : list (string * string)) : list (string * string) :=
  filter (λ kv, negb (String.eqb kv.1 k) = true) m.

Definition size (m : list (string * string)) : nat := length m.

End JsMap.

(** *** Queries *)

Module Host.

Definition isRoot (d : string) : bool := Path.isRoot d.

Definition fileExists (v : Vault) (p : string) : bool :=
  bool_decide (is_Some (files v !! p)).

Definition folderExists (v : Vault) (d : string) : bool :=
  isRoot d || bool_decide (d ∈ folders v).

(** [vault.exists], [adapter.exists] *)
Definition exists_ (v : Vault) (p : string) : bool :=
  fileExists v p || folderExists v p.

(** [vault.getFileByPath], [getFileOrNull]: the handle of the file, if any. *)
Definition getFileByPath (v : Vault) (p : string) : option string :=
  if fileExists v p then Some p else None.

(** [vault.getFolderByPath] *)
Definition getFolderByPath (v : Vault) (d : string) : option string :=
  if folderExists v d then Some d else None.

Definition parentOf (d : string) : string :=
  if isRoot d then "/" else d.

Definition childFiles (v : Vault) (d : string) : list string :=
  filter (λ p, parentOf (Path.parent p) = parentOf d) (map_to_list (files v)).*1.

Definition childFolders (v : Vault) (d : string) : list string :=
  filter (λ p, parentOf (Path.parent p) = parentOf d) (elements (folders v)).

(** [folder.children.length === 0], [isEmptyFolder] *)
Definition folderIsEmpty (v : Vault) (d : string) : bool :=
  bool_decide (childFiles v d = [] ∧ childFolders v d = []).

(** [listSafe]: the files and the folders directly inside [d]; both lists
    are empty when [d] does not exist. *)
Definition listSafe (v : Vault) (d : string) : list string * list string :=
  if folderExists v d then (childFiles v d, childFolders v d) else ([], []).

(** [Vault.recurseChildren] restricted to the [TFile] descendants of [d]. *)
Definition isUnder (d p : string) : bool :=
  isRoot d || Str.startsWith p (d +:+ "/").

Definition descendantFiles (v : Vault) (d : string) : list string :=
  filter (λ p, isUnder d p = true) (map_to_list (files v)).*1.

(** *** Available names *)

Definition withExtension (base ext : string) : string :=
  if Str.truthy ext then base +:+ "." +:+ ext else base.

Definition candidate (base ext : string) (i : nat) : string :=
  match i with
  | 0 => withExtension base ext
  | _ => withExtension (base +:+ " " +:+ pretty i) ext
  end.

(** The loop of [vault.getAvailablePath]: the first candidate among
    [base.ext], [base 1.ext], [base 2.ext], ... that names nothing in the
    vault.  [fuel] bounds the candidates that are tested. *)
Fixpoint firstAvailable (v : Vault) (base ext : string) (fuel i : nat) : string :=
  match fuel with
  | 0 => candidate base ext i
  | S fuel' =>
      if exists_ v (candidate base ext i)
      then firstAvailable v base ext fuel' (S i)
      else candidate base ext i
  end.

(** [vault.getAvailablePath(base, ext)].  The candidates are pairwise
    distinct and a vault of [n] files and folders occupies at most [n + 3]
    paths (the root answers to three names), so [n + 3] tests suffice. *)
Definition vaultGetAvailablePath (v : Vault) (base ext : string) : string :=
  firstAvailable v base ext (size (files v) + size (folders v) + 3) 0.

(** [getAvailablePath(app, path)]: the same search, from a full path. *)
Definition getAvailablePath (v : Vault) (p : string) : string :=
  vaultGetAvailablePath v (Path.join [Path.dirname p; Path.basename p]) (Path.extension p).

(** *** Mutations *)

(** [createFolderSafe]: create the folder, and the folders above it, unless
    they exist. *)
Definition createFolder (v : Vault) (d : string) : Vault :=
  if isRoot d then v
  else mkVault (files v) (folders v ∪ list_to_set (Path.hierarchy d)).

Definition moveFile (v : Vault) (old new : string) : Vault :=
  match files v !! old with
  | Some c => mkVault (<[new := c]> (delete old (files v))) (folders v)
  | None => v
  end.

Definition copyFile (v : Vault) (old new : string) : Vault :=
  match files v !! old with
  | Some c => mkVault (<[new := c]> (files v)) (folders v)
  | None => v
  end.

Definition removeFile (v : Vault) (p : string) : Vault :=
  mkVault (delete p (files v)) (folders v).

Definition removeFolder (v : Vault) (d : string) : Vault :=
  mkVault (files v) (folders v ∖ {[d]}).

Definition writeFile (v : Vault) (p content : string) : Vault :=
  match files v !! p with
  | Some _ => mkVault (<[p := content]> (files v)) (folders v)
  | None => v
  end.

(** [adapter.rmdir(d, false)] succeeds on an existing empty folder. *)
Definition canRmdir (v : Vault) (d : string) : bool :=
  negb (isRoot d) && bool_decide (d ∈ folders v) && folderIsEmpty v d.

(** The upward pruning loop shared by [deleteFile],
    [deleteEmptyFolderHierarchy] and [removeEmptyFolderHierarchy]:
    walk the chain of folders, innermost first, removing each one that
    exists and is empty, and stop at the first that is not. *)
Fixpoint pruneChain (chain : list string) (v : Vault) : Vault :=
  match chain with
  | [] => v
  | d :: rest =>
      if folderExists v d && folderIsEmpty v d
      then pruneChain rest (removeFolder v d)
      else v
  end.

End Host.

(** ** The collaborators of the source *)

(** A link occurrence of the metadata cache ([Reference]). *)
Record Link := mkLink {
  link : string;
  original : string;
  startOffset : nat;
  endOffset : nat
}.

(** [CachedMetadata]: the value of [frontmatter?.["ID"]], if any, and the
    links and embeds of the note in document order ([getAllLinks]). *)
Record CachedMetadata := mkCache {
  frontmatterID : option string;
  allLinks : list Link
}.

Record PathChangeInfo := mkChange {
  oldPath : string;
  newPath : string
}.

Record MovedAttachmentResult := mkResult {
  movedAttachments : list PathChangeInfo;
  renamedFiles : list PathChangeInfo
}.

(** A canvas document: the [file] nodes carry a path, every other field of a
    node and of the document is carried along opaquely. *)
Record CanvasNode := mkNode {
  nodeType : string;
  nodeFile : string;
  nodeRest : string
}.

Record CanvasData := mkCanvas {
  nodes : list CanvasNode;
  canvasRest : string
}.

Record FileChange := mkFileChange {
  startIndex : nat;
  endIndex : nat;
  oldContent : string;
  newContent : string
}.

(** What another writer may do to a folder between the moment it was listed
    and the moment it is removed: nothing, put a file into it, or remove it. *)
Inductive Race :=
  | NoRace
  | Filled (name content : string)
  | Removed.

(** The host application ([App]) and the library functions that take it:
    the link index, the attachment-folder policy and the text transforms are
    external collaborators and stay abstract. *)
Record App := mkApp {
  (* metadata cache *)
  getCacheSafe : Vault → string → option CachedMetadata;
  extractLinkFile : Vault → Link → string → option string;
  splitSubpath : string → string;
  testEmbed : string → bool;
  getBacklinksForFile : Vault → string → list (string * list Link);
  (* attachment-folder policy *)
  getAttachmentFilePath : Vault → string → string → string;
  getAttachmentFolderPath : Vault → string → string;
  attachmentFolderPathConfig : string;
  (* content *)
  md5 : string → string;
  updateLink : Vault → Link → string → string → list (string * string) → string;
  applyChanges : string → list FileChange → string;
  updateLinksInFileContent : Vault → string → string → list (string * string) → string → string;
  parseCanvas : string → option CanvasData;
  toJson : CanvasData → string;
  (* disk: what a concurrent writer does to [d] just before [adapter.rmdir] *)
  rmdirRaces : Vault → string → Race
}.

(** [LinksHandler], as far as [FilesHandler] calls it. *)
Record LinksHandler := mkLinksHandler {
  getCachedNotesThatHaveLinkToFile : Vault → string → list string;
  getFullPathForLink : string → string → string
}.

Record FilesHandler := mkFilesHandler {
  app : App;
  lh : LinksHandler;
  consoleLogPrefix : string;
  ignoreFolders : list string;
  ignoreFilesRegex : list (string → bool);
  shouldDeleteEmptyFolders : bool
}.

(** Modelled from the spec: [isNote] of [./Vault.ts], which is not part of
    the sources at hand.  Section 4.1: a file is classified purely by its
    extension; [md] and [canvas] make a note, everything else an attachment. *)
Definition isNote (file : string) : bool :=
  let ext := Str.toLowerCase (Path.extension file) in
  String.eqb ext "md" || String.eqb ext "canvas".

(** *** Host operations as computations *)

(** Modelled from the spec: [createFolderSafe] of [./Vault.ts], which is not
    part of the sources at hand.  Sections 4.3 and 6: create the folder if
    absent. *)
Definition createFolderSafe (d : string) : M unit :=
  v ← getVault; putVault (Host.createFolder v d).

(** [renameSafe]: move to [newPath], or to the next available name when
    [newPath] is taken; returns the path the file now has. *)
Definition renameSafe (file newPath : string) : M string :=
  v ← getVault;
  let target := if Host.exists_ v newPath then Host.getAvailablePath v newPath else newPath in
  putVault (Host.moveFile (Host.createFolder v (Path.dirname target)) file target) ;;
  mret target.

(** [copySafe]: the same for a copy. *)
Definition copySafe (file newPath : string) : M string :=
  v ← getVault;
  let target := if Host.exists_ v newPath then Host.getAvailablePath v newPath else newPath in
  putVault (Host.copyFile (Host.createFolder v (Path.dirname target)) file target) ;;
  mret target.

(** [fileManager.trashFile] on a file *)
Definition trashFile (file : string) : M unit :=
  v ← getVault; putVault (Host.removeFile v file).

(** [deleteEmptyFolderHierarchy(app, folder)] *)
Definition deleteEmptyFolderHierarchy (folder : string) : M unit :=
  v ← getVault; putVault (Host.pruneChain (Path.hierarchy folder) v).

(** [vault.rename]: the host refuses to overwrite. *)
Definition vaultRename (file newPath : string) : M unit :=
  v ← getVault;
  if Host.exists_ v newPath then throw "Destination file already exists!"
  else putVault (Host.moveFile v file newPath).

(** [adapter.rmdir(d, false)]: removes an existing empty folder and fails
    otherwise, in particular when a concurrent writer was faster. *)
Definition adapterRmdir (a : App) (d : string) : M unit :=
  v ← getVault;
  match rmdirRaces a v d with
  | Filled name content =>
      putVault (mkVault (<[d +:+ "/" +:+ name := content]> (files v)) (folders v)) ;;
      throw "ENOTEMPTY: directory not empty"
  | Removed =>
      putVault (Host.removeFolder v d) ;;
      throw "ENOENT: no such file or directory"
  | NoRace =>
      if Host.canRmdir v d then putVault (Host.removeFolder v d)
      else throw "rmdir failed"
  end.

(** ** files-handler.ts *)

Section FilesHandler.

Variable this : FilesHandler.

Definition emptyResult : MovedAttachmentResult := mkResult [] [].

Definition createFolderForAttachmentFromPath (filePath : string) : M unit :=
  createFolderSafe (Path.dirname filePath).

(** [deleteFile]: the loop [while (dir && dir.children.length === 0)] walks
    up from the parent of the file; the root is not stored and stays. *)
Definition deleteFile (file : string) (deleteEmptyFolders : bool) : M unit :=
  trashFile file ;;
  if deleteEmptyFolders then
    v ← getVault; putVault (Host.pruneChain (Path.hierarchy (Path.parent file)) v)
  else mret ().

Definition isAttachment (file : string) : bool := negb (isNote file).

Definition isPathIgnored (path : string) : bool :=
  let path := if Str.startsWith path "./" then Str.slice 2 path else path in
  existsb (λ folder, Str.startsWith path folder) (ignoreFolders this)
  || existsb (λ fileRegex, fileRegex path) (ignoreFilesRegex this).

Definition isSlash (c : ascii) : bool :=
  Ascii.eqb c "/"%char || Ascii.eqb c "\"%char.

Fixpoint splitSlashes (s : string) : list string :=
  match s with
  | "" => [""]
  | String c r =>
      if isSlash c then "" :: splitSlashes r
      else match splitSlashes r with
           | h :: t => String c h :: t
           | [] => [String c ""]
           end
  end.

(** Runs of slashes and backslashes become one slash; leading and trailing
    slashes are removed; the empty result is ["/"]. *)
Definition normalizeSlashes (path : string) : string :=
  let path := Str.joinWith "/" (filter (λ s, Str.truthy s = true) (splitSlashes path)) in
  if Str.truthy path then path else "/".

Definition trimStart (s pre : string) : string :=
  if Str.startsWith s pre then Str.slice (String.length pre) s else s.

Definition getParentPrefix (folder : string) : string :=
  if Host.isRoot folder then "" else folder +:+ "/".

Definition getCustomizedNewPath (notePath attachmentFile id : string) : M string :=
  v ← getVault;
  match files v !! attachmentFile with
  | None => throw "File not found"
  | Some data =>
      let basename := md5 (app this) data in
      let filename := basename +:+ "." +:+ Path.extension attachmentFile in
      match Host.getFileByPath v notePath with
      | None => throw "File not found"
      | Some noteFile =>
          let attachmentFolderPath := attachmentFolderPathConfig (app this) in
          let isCurrentFolder :=
            String.eqb attachmentFolderPath "." || String.eqb attachmentFolderPath "./" in
          let relativePath :=
            if Str.startsWith attachmentFolderPath "./"
            then trimStart attachmentFolderPath "./" else "" in
          let attachmentFolderPath :=
            if isCurrentFolder then Path.parent noteFile
            else if Str.truthy relativePath
                 then getParentPrefix (Path.parent noteFile) +:+ relativePath
                 else attachmentFolderPath in
          let attachmentFolderPath := Path.normalize (normalizeSlashes attachmentFolderPath) in
          mret (Path.join [attachmentFolderPath; id; filename])
      end
  end.

(** [linkedNotes.remove(notePath)] for every parent note. *)
Definition removeAll (remove : list string) (l : list string) : list string :=
  filter (λ n, n ∉ remove) l.

(** [moveAttachment].  The handle [file] is the path of an existing file.
    The re-entry test [path !== file.path] of the source can only fire when
    another task moves the file during an [await]; a sequential run never
    takes it, and it is left out. *)
Definition moveAttachment (file newLinkPath : string) (parentNotePaths : list string)
    (deleteExistFiles deleteEmptyFolders : bool) : M MovedAttachmentResult :=
  let path := file in
  if isPathIgnored path then mret emptyResult
  else if negb (isAttachment file) then mret emptyResult
  else if String.eqb path newLinkPath then
    logMsg Warn (consoleLogPrefix this +:+ "Can't move file. Source and destination path the same.") ;;
    mret emptyResult
  else
    createFolderForAttachmentFromPath newLinkPath ;;
    v ← getVault;
    let linkedNotes :=
      removeAll parentNotePaths (getCachedNotesThatHaveLinkToFile (lh this) v path) in
    let oldFolder := Path.parent file in
    result ← (
      if (length linkedNotes =? 0)%nat then
        match Host.getFileByPath v newLinkPath with
        | None =>
            logMsg Log "linkedNotes.1" ;;
            logMsg Log (consoleLogPrefix this +:+ "move file [from, to]: " +:+ path +:+ " " +:+ newLinkPath) ;;
            renameSafe file newLinkPath ;;
            mret (mkResult [mkChange path newLinkPath] [])
        | Some _ =>
            if deleteExistFiles then
              logMsg Log "linkedNotes.2" ;;
              logMsg Log (consoleLogPrefix this +:+ "delete file: " +:+ path) ;;
              deleteFile file deleteEmptyFolders ;;
              mret (mkResult [mkChange path newLinkPath] [])
            else
              logMsg Log "linkedNotes.3" ;;
              let newFileCopyName := Host.getAvailablePath v newLinkPath in
              logMsg Log (consoleLogPrefix this +:+ "copy file with new name [from, to]: " +:+ path +:+ " " +:+ newFileCopyName) ;;
              renameSafe file newFileCopyName ;;
              mret (mkResult [mkChange path newFileCopyName] [mkChange newLinkPath newFileCopyName])
        end
      else
        match Host.getFileByPath v newLinkPath with
        | None =>
            logMsg Log "linkedNotes.4" ;;
            logMsg Log (consoleLogPrefix this +:+ "copy file [from, to]: " +:+ path +:+ " " +:+ newLinkPath) ;;
            copySafe file newLinkPath ;;
            mret (mkResult [mkChange path newLinkPath] [])
        | Some _ =>
            if negb deleteExistFiles then
              logMsg Log "linkedNotes.5" ;;
              let newFileCopyName := Host.getAvailablePath v newLinkPath in
              logMsg Log (consoleLogPrefix this +:+ "copy file with new name [from, to]: " +:+ path +:+ " " +:+ newFileCopyName) ;;
              file' ← renameSafe file newFileCopyName;
              copySafe file' path ;;
              mret (mkResult [mkChange path newFileCopyName] [mkChange newLinkPath newFileCopyName])
            else
              logMsg Log "linkedNotes.6" ;;
              mret (mkResult [mkChange path newLinkPath] [])
        end);
    (if shouldDeleteEmptyFolders this then deleteEmptyFolderHierarchy oldFolder else mret ()) ;;
    mret result.

(** One iteration of the loop over the links of the note; [result] is the
    accumulated result. *)
Definition collectLink (notePath id : string)
    (deleteExistFiles deleteEmptyFolders customized : bool)
    (result : MovedAttachmentResult) (l : Link) : M MovedAttachmentResult :=
  let linkPath := splitSubpath (app this) (link l) in
  if negb (Str.truthy linkPath) then mret result
  else
    let fullPathLink := getFullPathForLink (lh this) linkPath notePath in
    if existsb (λ x, String.eqb (oldPath x) fullPathLink) (movedAttachments result)
    then mret result
    else
      v ← getVault;
      match extractLinkFile (app this) v l notePath with
      | None =>
          let type := if testEmbed (app this) (original l) then "embed" else "link" in
          logMsg Warn (consoleLogPrefix this +:+ notePath +:+ " has bad " +:+ type
                       +:+ " (file does not exist): " +:+ linkPath) ;;
          mret result
      | Some file =>
          if negb (isAttachment file) then mret result
          else
            newPath ← (if negb customized
                       then mret (getAttachmentFilePath (app this) v file notePath)
                       else getCustomizedNewPath notePath file id);
            res ← moveAttachment file newPath [notePath] deleteExistFiles deleteEmptyFolders;
            mret (mkResult (movedAttachments result ++ movedAttachments res)
                           (renamedFiles result ++ renamedFiles res))
      end.

Fixpoint collectLinks (notePath id : string)
    (deleteExistFiles deleteEmptyFolders customized : bool)
    (links : list Link) (result : MovedAttachmentResult) : M MovedAttachmentResult :=
  match links with
  | [] => mret result
  | l :: rest =>
      result' ← collectLink notePath id deleteExistFiles deleteEmptyFolders customized result l;
      collectLinks notePath id deleteExistFiles deleteEmptyFolders customized rest result'
  end.

(** [collectAttachmentsForCachedNote].  The test of ['ID'] comes before the
    loop and does not look at [customized]. *)
Definition collectAttachmentsForCachedNote (notePath : string)
    (deleteExistFiles deleteEmptyFolders customized : bool) : M MovedAttachmentResult :=
  if isPathIgnored notePath then mret emptyResult
  else
    v ← getVault;
    match getCacheSafe (app this) v notePath with
    | None => mret emptyResult
    | Some cache =>
        match frontmatterID cache with
        | None =>
            logMsg Notice ("Missing 'ID' in frontmatter of " +:+ notePath) ;;
            mret emptyResult
        | Some keyId =>
            if negb (Str.truthy keyId) then
              logMsg Notice ("Missing 'ID' in frontmatter of " +:+ notePath) ;;
              mret emptyResult
            else
              collectLinks notePath keyId deleteExistFiles deleteEmptyFolders customized
                (allLinks cache) emptyResult
        end
    end.

(** [deleteEmptyFolders].  The recursion follows the folder tree; [fuel]
    bounds its depth. *)
Fixpoint deleteEmptyFolders (fuel : nat) (dirName : string) : M unit :=
  match fuel with
  | 0 => λ st, (OutOfFuel, st)
  | S fuel' =>
      if isPathIgnored dirName then mret ()
      else
        let dirName := if Str.startsWith dirName "./" then Str.slice 2 dirName else dirName in
        v ← getVault;
        let list := Host.listSafe v dirName in
        forEach list.2 (deleteEmptyFolders fuel') ;;
        v ← getVault;
        let list := Host.listSafe v dirName in
        if (length list.1 =? 0)%nat && (length list.2 =? 0)%nat then
          logMsg Log (consoleLogPrefix this +:+ "delete empty folder: " +:+ dirName) ;;
          if Host.exists_ v dirName then
            tryCatch (adapterRmdir (app this) dirName)
              (λ e, v ← getVault;
                    if Host.exists_ v dirName then throw e else mret ())
          else mret ()
        else mret ()
  end.

End FilesHandler.

(** ** The rename/delete handler *)

Inductive TAbstractFile :=
  | TFile (path : string)
  | TFolder (path : string).

(** Modelled from the spec: [removeEmptyFolderHierarchy] of [./Vault.ts], which
    is not part of the sources at hand.  Section 4.5: remove the folder if and
    only if it has no child files or subfolders, then repeat on its parent,
    stopping at the tree root or at the first non-empty folder; a folder that
    does not exist counts as already pruned. *)
Definition removeEmptyFolderHierarchy (folder : string) : M unit :=
  v ← getVault; putVault (Host.pruneChain (Path.hierarchy folder) v).

(** Modelled from the spec: [applyFileChanges] of [./Vault.ts], which is not
    part of the sources at hand.  Section 4.3, step 2: the replacements for
    one document are computed and applied as a single batched text patch. *)
Definition applyFileChanges (a : App) (file : string) (changes : M (list FileChange)) : M unit :=
  cs ← changes;
  v ← getVault;
  match files v !! file with
  | Some content => putVault (Host.writeFile v file (applyChanges a content cs))
  | None => mret ()
  end.

(** Modelled from the spec: [processWithRetry] of [./Vault.ts], which is not
    part of the sources at hand.  Section 4.3, step 3 and failure handling:
    the text of [file] is replaced by [fn] of it; an error of [fn] (a
    malformed container) surfaces as an error for that file. *)
Definition processWithRetry (file : string) (fn : string → Res string) : M unit :=
  v ← getVault;
  match files v !! file with
  | Some content =>
      match fn content with
      | Ok content' => putVault (Host.writeFile v file content')
      | Throw e => throw e
      | OutOfFuel => λ st, (OutOfFuel, st)
      end
  | None => mret ()
  end.

(** Modelled from the spec: [updateLinksInFile] of [./Link.ts], which is not
    part of the sources at hand.  Section 4.3, step 4: the link rewriter runs
    over the body of the note itself. *)
Definition updateLinksInFile (a : App) (file oldPath : string) : M unit :=
  m ← getRenameMap;
  v ← getVault;
  match files v !! file with
  | Some content =>
      putVault (Host.writeFile v file (updateLinksInFileContent a v file oldPath m content))
  | None => mret ()
  end.

Section RenameDeleteHandler.

Variable a : App.

Definition fillRenameMapChild (oldAttachmentFolderPath newAttachmentFolderPath child : string)
    : M unit :=
  if isNote child then mret ()
  else
    let relativePath := Path.relative oldAttachmentFolderPath child in
    let newDir := Path.join [newAttachmentFolderPath; Path.dirname relativePath] in
    let newChildPath := Path.join [newDir; Path.name child] in
    if negb (String.eqb child newChildPath) then
      v ← getVault;
      let newChildPath :=
        Host.vaultGetAvailablePath v (Path.join [newDir; Path.basename child])
          (Path.extension child) in
      m ← getRenameMap;
      putRenameMap (JsMap.set child newChildPath m)
    else mret ().

Definition fillRenameMap (file oldPath : string) : M unit :=
  m ← getRenameMap;
  putRenameMap (JsMap.set oldPath file m) ;;
  if negb (isNote file) then mret ()
  else
    v ← getVault;
    let oldAttachmentFolderPath := getAttachmentFolderPath a v oldPath in
    let newAttachmentFolderPath := getAttachmentFolderPath a v file in
    match Host.getFolderByPath v oldAttachmentFolderPath with
    | None => mret ()
    | Some oldAttachmentFolder =>
        if String.eqb oldAttachmentFolderPath newAttachmentFolderPath then mret ()
        else
          let children := Host.descendantFiles v oldAttachmentFolder in
          forEach children
            (fillRenameMapChild oldAttachmentFolderPath newAttachmentFolderPath)
    end.

(** The body of the loop over the nodes of a canvas. *)
Definition rewriteNode (m : list (string * string)) (node : CanvasNode) : CanvasNode :=
  if negb (String.eqb (nodeType node) "file") then node
  else
    match JsMap.get (nodeFile node) m with
    | Some newPath =>
        if negb (Str.truthy newPath) then node
        else mkNode (nodeType node) newPath (nodeRest node)
    | None => node
    end.

Definition rewriteCanvas (m : list (string * string)) (canvasData : CanvasData) : CanvasData :=
  mkCanvas (map (rewriteNode m) (nodes canvasData)) (canvasRest canvasData).

(** The callback handed to [processWithRetry] for a canvas. *)
Definition canvasCallback (m : list (string * string)) (content : string) : Res string :=
  match parseCanvas a content with
  | Some canvasData => Ok (toJson a (rewriteCanvas m canvasData))
  | None => Throw "SyntaxError"
  end.

Definition processBacklink (file parentNotePath : string) : M unit :=
  v ← getVault;
  m ← getRenameMap;
  let parentNote :=
    match Host.getFileByPath v parentNotePath with
    | Some f => Some f
    | None =>
        match JsMap.get parentNotePath m with
        | Some newParentNotePath =>
            if Str.truthy newParentNotePath
            then Host.getFileByPath v newParentNotePath else None
        | None => None
        end
    end in
  match parentNote with
  | None => logMsg Error ("Parent note not found: " +:+ parentNotePath)
  | Some parentNote =>
      applyFileChanges a parentNote (
        v ← getVault;
        m ← getRenameMap;
        let links := default [] (snd <$> List.find (λ kv, String.eqb kv.1 parentNotePath)
                                                  (getBacklinksForFile a v file)) in
        mret (map (λ l, mkFileChange (startOffset l) (endOffset l) (original l)
                          (updateLink a v l file parentNote m)) links))
  end.

(** The branch of [processRename] on [file.extension.toLowerCase()]: a
    canvas has its file nodes rewritten, a markdown note its own links. *)
Definition processOwnContent (file oldPath : string) : M unit :=
  if String.eqb (Str.toLowerCase (Path.extension file)) "canvas" then
    m ← getRenameMap;
    processWithRetry file (canvasCallback m)
  else if String.eqb (Str.toLowerCase (Path.extension file)) "md" then
    updateLinksInFile a file oldPath
  else mret ().

Definition processRename (oldPath newPath : string) : M unit :=
  v ← getVault;
  let oldFile := Host.getFileByPath v oldPath in
  let newFile := Host.getFileByPath v newPath in
  match (match oldFile with Some f => Some f | None => newFile end) with
  | None => mret ()
  | Some file =>
      let backlinks := getBacklinksForFile a v file in
      forEach backlinks.*1 (processBacklink file) ;;
      processOwnContent file oldPath ;;
      match oldFile with
      | Some oldFile =>
          createFolderSafe (Path.dirname newPath) ;;
          let oldFolder := Path.parent oldFile in
          vaultRename oldFile newPath ;;
          m ← getRenameMap;
          putRenameMap (JsMap.delete oldPath m) ;;
          removeEmptyFolderHierarchy oldFolder
      | None => mret ()
      end
  end.

(** [handleRename].  The entries are visited in insertion order; the loop
    body removes no entry but the one it is visiting and adds none, so the
    live iteration of the source visits exactly the entries present when
    the loop starts.  The host reports every move the cascade makes as a
    rename of its own; such a notification meets a non-empty rename map and
    is turned away by the first test, so it is not replayed here.  The
    replacement of [fileManager.updateAllLinks] by a stub for the duration of
    the cascade has no effect on the state modelled here. *)
Definition handleRename (file : TAbstractFile) (oldPath : string) : M unit :=
  m ← getRenameMap;
  if (0 <? JsMap.size m)%nat then mret ()
  else
    logMsg Debug "Handle Rename" ;;
    match file with
    | TFolder _ => mret ()
    | TFile file =>
        tryFinally
          (fillRenameMap file oldPath ;;
           m ← getRenameMap;
           forEach m (λ '(oldPath2, newPath2), processRename oldPath2 newPath2))
          (m ← getRenameMap; putRenameMap (JsMap.delete oldPath m))
    end.

End RenameDeleteHandler.

(** ** Specification-side definitions *)

Section IgnoredSpec.

Variable this : FilesHandler.

Definition stripDotSlash (path : string) : string :=
  if Str.startsWith path "./" then Str.slice 2 path else path.

(** What [isPathIgnored] decides, in words: after a leading ["./"] is
    dropped, the path starts with an ignored folder or matches an ignored
    file pattern. *)
Definition matchesIgnore (path : string) : Prop :=
  (∃ folder, folder ∈ ignoreFolders this ∧ Str.startsWith (stripDotSlash path) folder = true)
  ∨ (∃ fileRegex, fileRegex ∈ ignoreFilesRegex this ∧ fileRegex (stripDotSlash path) = true).

End IgnoredSpec.

(** ** Proof support *)

(** Every path the vault answers for. *)
Definition occupied (v : Vault) : list string :=
  (map_to_list (files v)).*1 ++ elements (folders v) ++ ["/"; ""; "."].

(** ** Concrete collaborators for the examples

    The attachment-folder policy is "a subfolder named after the note"; links
    are written relative to the folder of the note. *)

Module Demo.

Definition lookup {A} (k : string) (table : list (string * A)) : option A :=
  snd <$> List.find (λ kv, String.eqb kv.1 k) table.

Definition attachmentFolder (note : string) : string :=
  Path.join [Path.dirname note; Path.basename note].

Definition demoApp (caches : list (string * CachedMetadata))
    (races : list (string * Race)) : App := {|
  getCacheSafe _ p := lookup p caches;
  extractLinkFile v l note := Host.getFileByPath v (Path.join [Path.dirname note; link l]);
  splitSubpath s := s;
  testEmbed s := Str.startsWith s "!";
  getBacklinksForFile _ _ := [];
  getAttachmentFilePath _ file note := Path.join [attachmentFolder note; Path.name file];
  getAttachmentFolderPath _ note := attachmentFolder note;
  attachmentFolderPathConfig := "./";
  md5 _ := "d41d8cd98f00b204e9800998ecf8427e";
  updateLink _ l _ _ _ := original l;
  applyChanges content _ := content;
  updateLinksInFileContent _ _ _ _ content := content;
  parseCanvas _ := None;
  toJson _ := "{}";
  rmdirRaces _ d := default NoRace (lookup d races)
|}.

Definition demoLinks (linked : list (string * list string)) : LinksHandler := {|
  getCachedNotesThatHaveLinkToFile _ p := default [] (lookup p linked);
  getFullPathForLink linkPath note := Path.join [Path.dirname note; linkPath]
|}.

Definition demoHandlerWith (caches : list (string * CachedMetadata))
    (linked : list (string * list string)) (races : list (string * Race))
    (pruneFolders : bool) : FilesHandler := {|
  app := demoApp caches races;
  lh := demoLinks linked;
  consoleLogPrefix := "";
  ignoreFolders := [".git/"; ".obsidian/"];
  ignoreFilesRegex := [];
  shouldDeleteEmptyFolders := pruneFolders
|}.

Definition demoHandler (caches : list (string * CachedMetadata))
    (linked : list (string * list string)) (pruneFolders : bool) : FilesHandler :=
  demoHandlerWith caches linked [] pruneFolders.

Definition mkDemoVault (fs : list (string * string)) (ds : list string) : Vault :=
  mkVault (list_to_map fs) (list_to_set ds).

Definition startIn (v : Vault) : State := mkState v [] [].

(** A state observed through lists, for printing and comparison. *)
Definition observe {A} (r : Res A * State)
    : Res A * list (string * string) * list string * list (string * string) :=
  (r.1, map_to_list (files (vault r.2)), elements (folders (vault r.2)), renameMap r.2).

End Demo.

(** ** The cascade of section 4.2, in the words of the specification *)

Section CascadeSpec.

Variables (v : Vault) (oldFolder newFolder : string).

(** The folder of [child] re-rooted under the new attachment folder. *)
Definition rerootedDir (child : string) : string :=
  Path.join [newFolder; Path.dirname (Path.relative oldFolder child)].

(** The position of [child] re-rooted under the new attachment folder. *)
Definition rerooted (child : string) : string :=
  Path.join [rerootedDir child; Path.name child].

(** The same position, spelled as base name and extension. *)
Definition rerootedCandidate (child : string) : string :=
  Host.withExtension (Path.join [rerootedDir child; Path.basename child])
    (Path.extension child).

(** The sibling names of the re-rooted position: itself for [0], then
    [base 1.ext], [base 2.ext], ... *)
Definition siblingName (child : string) (i : nat) : string :=
  Host.candidate (Path.join [rerootedDir child; Path.basename child])
    (Path.extension child) i.

(** The re-rooted position, or its next available sibling name. *)
Definition cascadeTarget (child : string) : string :=
  Host.vaultGetAvailablePath v (Path.join [rerootedDir child; Path.basename child])
    (Path.extension child).

(** A file of the old attachment folder that the cascade moves. *)
Definition moves (child : string) : bool :=
  negb (isNote child) && negb (String.eqb child (rerooted child)).

Definition cascadeStep (m : list (string * string)) (child : string) : list (string * string) :=
  if moves child then JsMap.set child (cascadeTarget child) m else m.

End CascadeSpec.

(** The rename map that the cascade builder leaves, from the map [m0] it
    finds: the seed, then one entry per file that moves. *)
Definition cascadeOf (a : App) (v : Vault) (file oldPath : string)
    (m0 : list (string * string)) : list (string * string) :=
  let seeded := JsMap.set oldPath file m0 in
  let oldFolder := getAttachmentFolderPath a v oldPath in
  let newFolder := getAttachmentFolderPath a v file in
  if isNote file && Host.folderExists v oldFolder && negb (String.eqb oldFolder newFolder)
  then fold_left (cascadeStep v oldFolder newFolder) (Host.descendantFiles v oldFolder) seeded
  else seeded.

(** ** The conflict table of section 4.4, in the words of the specification *)

Section ConflictTable.

Variable this : FilesHandler.

(** The attachment has at least one backlink from a note other than the ones
    being processed. *)
Definition isShared (v : Vault) (path : string) (parentNotePaths : list string) : bool :=
  existsb (λ n, bool_decide (n ∉ parentNotePaths))
    (getCachedNotesThatHaveLinkToFile (lh this) v path).

(** A file already exists at the computed target path. *)
Definition isCollision (v : Vault) (target : string) : bool := Host.fileExists v target.

(** The six rows: the files of the vault afterwards and what is recorded.
    [content] is the content of the attachment at [path].  A row that moves
    or copies the attachment records that as a moved attachment; a row that
    resorts to a unique sibling name records the redirect from the target to
    that name as a renamed file.  The last row is a no-op on the files;
    [noOpRecords] tells whether it still records the target as the path the
    note should link to. *)
Definition conflictTable (noOpRecords : bool) (v : Vault) (path target content : string)
    (shared collision deleteExisting : bool) : gmap string string * MovedAttachmentResult :=
  let unique := Host.getAvailablePath v target in
  match shared, collision, deleteExisting with
  | false, false, _ =>
      (<[target := content]> (delete path (files v)), mkResult [mkChange path target] [])
  | false, true, true =>
      (delete path (files v), mkResult [mkChange path target] [])
  | false, true, false =>
      (<[unique := content]> (delete path (files v)),
       mkResult [mkChange path unique] [mkChange target unique])
  | true, false, _ =>
      (<[target := content]> (files v), mkResult [mkChange path target] [])
  | true, true, false =>
      (<[unique := content]> (files v),
       mkResult [mkChange path unique] [mkChange target unique])
  | true, true, true =>
      (files v, mkResult (if noOpRecords then [mkChange path target] else []) [])
  end.

(** The table as section 4.4 words it: the last row records no change. *)
Definition specTable := conflictTable false.

(** The table as the code fills it: the last row records the target. *)
Definition codeTable := conflictTable true.

(** The vault at the moment the rows are told apart: [moveAttachment] has
    created the folder of the target. *)
Definition prepared (v : Vault) (target : string) : Vault :=
  Host.createFolder v (Path.dirname target).

(** Neither the target nor the source is the path of a folder, the folders
    made on the way included. *)
Definition noFolderClash (v : Vault) (path target : string) : bool :=
  let v1 := prepared v target in
  let unique := Host.getAvailablePath v1 target in
  negb (Host.folderExists v1 target)
  && negb (Host.folderExists (Host.createFolder v1 (Path.dirname unique)) path).

End ConflictTable.

(** ** Relations between states *)

(** The step changed the text of files at most: the same files and folders
    exist and the rename map is the same. *)
Definition contentOnly (st st' : State) : Prop :=
  dom (files (vault st')) = dom (files (vault st))
  ∧ folders (vault st') = folders (vault st)
  ∧ renameMap st' = renameMap st.

(** [file] is not a canvas, or canvases can be parsed. *)
Definition readableCanvas (a : App) (file : string) : Prop :=
  String.eqb (Str.toLowerCase (Path.extension file)) "canvas" = false
  ∨ ∀ content, is_Some (parseCanvas a content).

(** ** The two resolvers of the collector *)

(** The collector looks a link up twice: [extractLinkFile] gives the file
    that is moved, [getFullPathForLink] the path under which the link is
    remembered as done.  Section 4.1 describes one path resolver; here the
    two are said to agree when the remembered path of a link that resolves
    is the path of the file it resolves to. *)
Definition resolversAgree (this : FilesHandler) : Prop :=
  ∀ v l notePath file,
    extractLinkFile (app this) v l notePath = Some file →
    getFullPathForLink (lh this) (splitSubpath (app this) (link l)) notePath = file.

Definition oldPaths (result : MovedAttachmentResult) : list string :=
  oldPath <$> movedAttachments result.

(** ** Termination of [deleteEmptyFolders] *)

Definition depth (p : string) : nat := length (Path.segments p).

(** No folder of the vault goes by a name of the root or by a name with a
    leading ["./"], and no folder lies deeper than [maxDepth]. *)
Definition folderNamesOk (maxDepth : nat) (v : Vault) : Prop :=
  ∀ g, g ∈ folders v →
    Path.isRoot g = false ∧ Str.startsWith g "./" = false ∧ depth g ≤ maxDepth.

(** How many nested calls a folder can still cause. *)
Definition nesting (maxDepth : nat) (d : string) : nat :=
  if Path.isRoot d then S maxDepth else maxDepth - depth d.

(** * Properties *)

#[local] Set Warnings "-clear-no-such-hyp".

(** ** Paths *)

Example path_demo :
  Path.dirname "A/note/img.png" = "A/note" ∧
  Path.relative "A/note" "A/note/sub/img.png" = "sub/img.png" ∧
  Path.join ["B/note"; Path.dirname "sub/img.png"; "img.png"] = "B/note/sub/img.png" ∧
  Path.join ["B/note"; Path.dirname "img.png"] = "B/note" ∧
  Path.basename "A/img 1.tar.gz" = "img 1.tar" ∧ Path.extension "A/img 1.tar.gz" = "gz" ∧
  Path.parent "a.md" = "/" ∧ Path.hierarchy "A/b/c" = ["A/b/c"; "A/b"; "A"].
Proof. vm_compute. repeat split. Qed.

(** ** Running computations *)

Ltac unfold_monad :=
  unfold tryFinally, tryCatch, throw, getVault, putVault, getRenameMap,
    putRenameMap, logMsg, mbind, M_bind, mret, M_ret in *.

Ltac run := repeat (unfold_monad; cbn [fst snd vault renameMap console] in *).

Lemma bind_ok {A B} (m : M A) (f : A → M B) st a st1 :
  m st = (Ok a, st1) → (m ≫= f) st = f a st1.
Proof. intros H. unfold mbind, M_bind. by rewrite H. Qed.

Lemma state_eta st : mkState (vault st) (renameMap st) (console st) = st.
Proof. by destruct st. Qed.

(** ** Strings *)

Lemma string_app_nil_l (t : string) : "" +:+ t = t.
Proof. reflexivity. Qed.

Lemma string_app_cons (c : ascii) (s t : string) : String c s +:+ t = String c (s +:+ t).
Proof. reflexivity. Qed.

Lemma string_length_app (s t : string) :
  String.length (s +:+ t) = String.length s + String.length t.
Proof.
  induction s as [|c s IH]; [done|]. rewrite string_app_cons. simpl. by rewrite IH.
Qed.

Lemma app_inv_tail_str (t s1 s2 : string) : s1 +:+ t = s2 +:+ t → s1 = s2.
Proof.
  revert s2. induction s1 as [|c s1 IH]; intros [|d s2] H;
    rewrite ?string_app_nil_l, ?string_app_cons in H.
  - done.
  - apply (f_equal String.length) in H. simpl in H. rewrite string_length_app in H. lia.
  - apply (f_equal String.length) in H. simpl in H. rewrite string_length_app in H. lia.
  - injection H as -> H. f_equal. by apply IH.
Qed.

Lemma eqb_true s t : String.eqb s t = true ↔ s = t.
Proof. apply String.eqb_eq. Qed.

Lemma eqb_false s t : String.eqb s t = false ↔ s ≠ t.
Proof. apply String.eqb_neq. Qed.

(** ** Available names *)

Lemma withExtension_inj ext b1 b2 :
  Host.withExtension b1 ext = Host.withExtension b2 ext → b1 = b2.
Proof.
  unfold Host.withExtension. destruct (Str.truthy ext); [|done].
  apply app_inv_tail_str.
Qed.

Lemma candidate_inj base ext i j :
  Host.candidate base ext i = Host.candidate base ext j → i = j.
Proof.
  destruct i as [|i], j as [|j]; simpl; intros H%withExtension_inj; try done.
  - apply (f_equal String.length) in H. rewrite string_length_app in H. simpl in H. lia.
  - apply (f_equal String.length) in H. rewrite string_length_app in H. simpl in H. lia.
  - apply (inj (String.app base)) in H.
    apply (inj (String.app " ")) in H.
    by apply (inj pretty) in H.
Qed.

Lemma exists_occupied v p : Host.exists_ v p = true → p ∈ occupied v.
Proof.
  unfold Host.exists_, Host.fileExists, Host.folderExists, Host.isRoot, Path.isRoot, occupied.
  rewrite !orb_true_iff, !bool_decide_eq_true, !eqb_true.
  intros [[c Hc] | [[[-> | ->] | ->] | Hd]]; rewrite !elem_of_app.
  - left. apply list_elem_of_fmap. exists (p, c). split; [done|].
    by apply elem_of_map_to_list.
  - right; right. set_solver.
  - right; right. set_solver.
  - right; right. set_solver.
  - right; left. by apply elem_of_elements.
Qed.

Lemma length_occupied v :
  length (occupied v) = size (files v) + size (folders v) + 3.
Proof.
  unfold occupied. rewrite !length_app, length_fmap, length_map_to_list. simpl.
  change (length (elements (folders v))) with (size (folders v)). lia.
Qed.

Lemma firstAvailable_spec v base ext fuel i :
  ∃ k, Host.firstAvailable v base ext fuel i = Host.candidate base ext (i + k)
       ∧ k ≤ fuel
       ∧ (∀ j, j < k → Host.exists_ v (Host.candidate base ext (i + j)) = true)
       ∧ (k < fuel → Host.exists_ v (Host.candidate base ext (i + k)) = false).
Proof.
  revert i. induction fuel as [|fuel IH]; intros i; simpl.
  - exists 0. rewrite Nat.add_0_r. repeat split; [lia | intros; lia | lia].
  - destruct (Host.exists_ v (Host.candidate base ext i)) eqn:E.
    + destruct (IH (S i)) as (k & Hk & Hle & Hocc & Hfree).
      exists (S k). replace (i + S k) with (S i + k) by lia.
      repeat split; [done | lia | | intros; apply Hfree; lia].
      intros [|j] Hj; [by rewrite Nat.add_0_r|].
      replace (i + S j) with (S i + j) by lia. apply Hocc. lia.
    + exists 0. rewrite Nat.add_0_r. repeat split; [lia | intros; lia | done].
Qed.

Lemma vaultGetAvailablePath_free v base ext :
  Host.exists_ v (Host.vaultGetAvailablePath v base ext) = false.
Proof.
  unfold Host.vaultGetAvailablePath.
  set (n := size (files v) + size (folders v) + 3).
  destruct (firstAvailable_spec v base ext n 0) as (k & -> & Hle & Hocc & Hfree).
  simpl in *. destruct (decide (k < n)) as [Hlt | Hge]; [by apply Hfree|].
  assert (k = n) as -> by lia.
  destruct (Host.exists_ v (Host.candidate base ext n)) eqn:E; [|done].
  exfalso.
  set (l := Host.candidate base ext <$> seq 0 (S n)).
  assert (NoDup l) as Hnd.
  { apply NoDup_fmap_2; [|apply NoDup_seq]. intros ??. apply candidate_inj. }
  assert (∀ x, x ∈ l → x ∈ occupied v) as Hsub.
  { intros x (j & -> & Hj%elem_of_seq)%list_elem_of_fmap.
    apply exists_occupied. destruct (decide (j = n)) as [-> | ?]; [done|].
    apply Hocc. lia. }
  pose proof (submseteq_length _ _ (NoDup_submseteq _ _ Hnd Hsub)) as Hlen.
  unfold l in Hlen. rewrite length_fmap, length_seq, length_occupied in Hlen. lia.
Qed.

Lemma vaultGetAvailablePath_first v base ext :
  Host.exists_ v (Host.withExtension base ext) = false →
  Host.vaultGetAvailablePath v base ext = Host.withExtension base ext.
Proof.
  intros H. unfold Host.vaultGetAvailablePath.
  rewrite Nat.add_comm. simpl. by rewrite H.
Qed.

(** The name that is returned is the next available one: every candidate
    before it is taken. *)
Lemma vaultGetAvailablePath_next v base ext :
  ∃ i, Host.vaultGetAvailablePath v base ext = Host.candidate base ext i
     ∧ ∀ j, j < i → Host.exists_ v (Host.candidate base ext j) = true.
Proof.
  unfold Host.vaultGetAvailablePath.
  destruct (firstAvailable_spec v base ext (size (files v) + size (folders v) + 3) 0)
    as (k & Hk & _ & Hocc & _).
  exists k. split; [done|]. intros j Hj. by apply (Hocc j).
Qed.

Lemma getAvailablePath_free v p : Host.exists_ v (Host.getAvailablePath v p) = false.
Proof. apply vaultGetAvailablePath_free. Qed.

(** ** Ignored paths *)

Section Ignored.

Variable this : FilesHandler.

Lemma isPathIgnored_iff path : isPathIgnored this path = true ↔ matchesIgnore this path.
Proof.
  unfold isPathIgnored, matchesIgnore, stripDotSlash.
  rewrite orb_true_iff, !existsb_exists.
  split; (intros [(x & Hin & Hx) | (x & Hin & Hx)]; [left | right]);
    exists x; (split; [by apply list_elem_of_In | done]).
Qed.

End Ignored.

(** C9. A path that matches a configured ignore folder prefix or ignore file
    pattern is left alone: [collectAttachmentsForCachedNote] on such a note and
    [moveAttachment] on such a file return the empty result (no moved
    attachments, no renamed files) and leave the whole state (vault, rename
    map and console) as it was. *)
Theorem ignored_path_is_noop (this : FilesHandler) (path : string) (st : State)
    (deleteExistFiles deleteEmptyFolders customized : bool)
    (newLinkPath : string) (parentNotePaths : list string) :
  matchesIgnore this path →
  collectAttachmentsForCachedNote this path deleteExistFiles deleteEmptyFolders customized st
    = (Ok (mkResult [] []), st)
  ∧ moveAttachment this path newLinkPath parentNotePaths deleteExistFiles deleteEmptyFolders st
    = (Ok (mkResult [] []), st).
Proof.
  intros H%isPathIgnored_iff.
  unfold collectAttachmentsForCachedNote, moveAttachment. by rewrite H.
Qed.

Lemma ignored_path_is_noop_witness :
  let this := Demo.demoHandler [] [] true in
  let st := Demo.startIn (Demo.mkDemoVault [(".obsidian/icon.png", "PNG")] [".obsidian"]) in
  matchesIgnore this "./.obsidian/icon.png"
  ∧ moveAttachment this "./.obsidian/icon.png" "N/icon.png" ["N.md"] true true st
    = (Ok (mkResult [] []), st).
Proof.
  intros this st.
  assert (matchesIgnore this "./.obsidian/icon.png") as H.
  { left. exists ".obsidian/". split; [|reflexivity]. simpl. set_solver. }
  split; [exact H|].
  exact (proj2 (ignored_path_is_noop this "./.obsidian/icon.png" st true true false
                  "N/icon.png" ["N.md"] H)).
Defined.

(** ** The guard of [handleRename] *)

Lemma handleRename_guard (a : App) (file : TAbstractFile) (oldPath : string) (st : State) :
  (0 <? JsMap.size (renameMap st))%nat = true →
  handleRename a file oldPath st = (Ok (), st).
Proof. intros H. unfold handleRename. run. by rewrite H. Qed.

(** C3 (as the code has it). A rename notification that arrives while the
    rename map is non-empty is dropped: [handleRename] returns at once and
    leaves the rename map, the vault and the console exactly as they were.
    No nested cascade starts, and nothing is added to the map. *)
Theorem handleRename_busy_is_dropped (a : App) (file : TAbstractFile) (oldPath : string)
    (st : State) :
  (0 < JsMap.size (renameMap st))%nat →
  handleRename a file oldPath st = (Ok (), st).
Proof. intros H. apply handleRename_guard. by apply Nat.ltb_lt. Qed.

Lemma handleRename_busy_is_dropped_witness :
  let st := mkState (Demo.mkDemoVault [("C/new.md", "text")] ["C"])
                    [("A/x.png", "B/x.png")] [] in
  (0 < JsMap.size (renameMap st))%nat
  ∧ handleRename (Demo.demoApp [] []) (TFile "C/new.md") "C/old.md" st = (Ok (), st).
Proof.
  split; [simpl; lia | apply handleRename_busy_is_dropped; simpl; lia].
Defined.

(** C3 (as the claim has it) fails: with the entry [A/x.png -> B/x.png]
    pending, the notification that [C/old.md] became [C/new.md] is not folded
    into the rename map; the map still has one entry and none for
    [C/old.md]. *)
Lemma handleRename_busy_not_folded :
  let st := mkState (Demo.mkDemoVault [("C/new.md", "text")] ["C"])
                    [("A/x.png", "B/x.png")] [] in
  let st' := (handleRename (Demo.demoApp [] []) (TFile "C/new.md") "C/old.md" st).2 in
  (0 < JsMap.size (renameMap st))%nat
  ∧ JsMap.get "C/old.md" (renameMap st') = None
  ∧ renameMap st' = [("A/x.png", "B/x.png")].
Proof. vm_compute. repeat split; lia. Qed.

(** ** The identifier check of the collector *)

Lemma collect_without_ID (this : FilesHandler) notePath cache
    (deleteExistFiles deleteEmptyFolders customized : bool) st :
  isPathIgnored this notePath = false →
  getCacheSafe (app this) (vault st) notePath = Some cache →
  frontmatterID cache = None →
  collectAttachmentsForCachedNote this notePath deleteExistFiles deleteEmptyFolders customized st
  = (Ok emptyResult,
     mkState (vault st) (renameMap st)
       (console st ++ [(Notice, "Missing 'ID' in frontmatter of " +:+ notePath)])).
Proof.
  intros Hi Hc Hid. unfold collectAttachmentsForCachedNote. rewrite Hi. run.
  by rewrite Hc, Hid.
Qed.

(** C6. In the default positional mode ([customized = false]) the note
    [N.md] links to the attachment [pics/img.png] and has no ['ID'] in its
    frontmatter.  The collector gives up on the note: it returns the empty
    result, leaves the vault as it was and shows the "Missing 'ID'" notice.
    With an ['ID'] in the frontmatter the same call moves the attachment to
    [N/img.png], and the identifier plays no part in the path. *)
Theorem collect_default_mode_requires_ID :
  let v := Demo.mkDemoVault [("N.md", "![](pics/img.png)"); ("pics/img.png", "PNG")] ["pics"] in
  let l := mkLink "pics/img.png" "![](pics/img.png)" 0 17 in
  let without := Demo.demoHandler [("N.md", mkCache None [l])] [] false in
  let with_ := Demo.demoHandler [("N.md", mkCache (Some "42") [l])] [] false in
  collectAttachmentsForCachedNote without "N.md" false false false (Demo.startIn v)
  = (Ok (mkResult [] []),
     mkState v [] [(Notice, "Missing 'ID' in frontmatter of N.md")])
  ∧ Demo.observe (collectAttachmentsForCachedNote with_ "N.md" false false false (Demo.startIn v))
  = (Ok (mkResult [mkChange "pics/img.png" "N/img.png"] []),
     [("N/img.png", "PNG"); ("N.md", "![](pics/img.png)")], ["N"; "pics"], []).
Proof. vm_compute. split; reflexivity. Qed.
(** ** The rename map *)

Lemma get_set_eq k v m : JsMap.get k (JsMap.set k v m) = Some v.
Proof.
  induction m as [|[k' v'] m IH]; simpl.
  - by rewrite String.eqb_refl.
  - destruct (String.eqb k' k) eqn:E; simpl.
    + by rewrite String.eqb_refl.
    + by rewrite E.
Qed.

Lemma get_set_ne k k' v m : k ≠ k' → JsMap.get k' (JsMap.set k v m) = JsMap.get k' m.
Proof.
  intros Hne. induction m as [|[k0 v0] m IH]; simpl.
  - by apply eqb_false in Hne as ->.
  - destruct (String.eqb k0 k) eqn:E; simpl.
    + apply eqb_true in E as ->. by apply eqb_false in Hne as ->.
    + by rewrite IH.
Qed.

Lemma get_delete_eq k m : JsMap.get k (JsMap.delete k m) = None.
Proof.
  unfold JsMap.delete. induction m as [|[k0 v0] m IH]; [done|].
  rewrite filter_cons. simpl. destruct (String.eqb k0 k) eqn:E; simpl; [done|].
  by rewrite E.
Qed.

Lemma get_delete_ne k k' m : k ≠ k' → JsMap.get k' (JsMap.delete k m) = JsMap.get k' m.
Proof.
  intros Hne. unfold JsMap.delete. induction m as [|[k0 v0] m IH]; [done|].
  rewrite filter_cons. simpl. destruct (String.eqb k0 k) eqn:E; simpl.
  - apply eqb_true in E as ->. by apply eqb_false in Hne as ->.
  - by rewrite IH.
Qed.

(** ** The cascade builder *)

Section Cascade.

Variable a : App.

Lemma fillRenameMapChild_run oldF newF child st :
  fillRenameMapChild oldF newF child st
  = (Ok (), mkState (vault st)
              (cascadeStep (vault st) oldF newF (renameMap st) child) (console st)).
Proof.
  unfold fillRenameMapChild, cascadeStep, moves, cascadeTarget, rerooted, rerootedDir.
  destruct (isNote child); simpl; run; [by rewrite state_eta|].
  destruct (String.eqb child _); simpl; run; [by rewrite state_eta | done].
Qed.

Lemma forEach_fill oldF newF children st :
  forEach children (fillRenameMapChild oldF newF) st
  = (Ok (), mkState (vault st)
              (fold_left (cascadeStep (vault st) oldF newF) children (renameMap st))
              (console st)).
Proof.
  revert st. induction children as [|c children IH]; intros st; simpl.
  - run. by rewrite state_eta.
  - rewrite (bind_ok _ _ _ _ _ (fillRenameMapChild_run oldF newF c st)).
    rewrite IH. done.
Qed.

Lemma get_cascade_other v oldF newF children m k :
  (k ∈ children → moves oldF newF k = false) →
  JsMap.get k (fold_left (cascadeStep v oldF newF) children m) = JsMap.get k m.
Proof.
  revert m. induction children as [|c children IH]; intros m Hk; [done|].
  simpl. rewrite IH by (intros ?; apply Hk; by right).
  unfold cascadeStep. destruct (moves oldF newF c) eqn:E; [|done].
  apply get_set_ne. intros ->. rewrite Hk in E; [done | by left].
Qed.

Lemma get_cascade_moved v oldF newF children m k :
  k ∈ children → moves oldF newF k = true →
  JsMap.get k (fold_left (cascadeStep v oldF newF) children m)
  = Some (cascadeTarget v oldF newF k).
Proof.
  revert m. induction children as [|c children IH]; intros m Hin Hm.
  - by apply elem_of_nil in Hin.
  - simpl. destruct (decide (k ∈ children)) as [Hk | Hk]; [by apply IH|].
    apply elem_of_cons in Hin as [-> | ?]; [|done].
    rewrite get_cascade_other by done.
    unfold cascadeStep. rewrite Hm. apply get_set_eq.
Qed.

Lemma elem_of_descendantFiles v d p :
  p ∈ Host.descendantFiles v d ↔ is_Some (files v !! p) ∧ Host.isUnder d p = true.
Proof.
  unfold Host.descendantFiles. rewrite list_elem_of_filter, list_elem_of_fmap. split.
  - intros [Hu ([p' c] & -> & Hin%elem_of_map_to_list)]. eauto.
  - intros [[c Hc] Hu]. split; [done|]. exists (p, c). split; [done|].
    by apply elem_of_map_to_list.
Qed.

End Cascade.

Lemma fillRenameMap_run (a : App) file oldPath st :
  fillRenameMap a file oldPath st
  = (Ok (), mkState (vault st) (cascadeOf a (vault st) file oldPath (renameMap st))
              (console st)).
Proof.
  unfold fillRenameMap, cascadeOf, Host.getFolderByPath. run.
  destruct (isNote file); simpl; [|done].
  destruct (Host.folderExists _ _); simpl; [|done].
  destruct (String.eqb _ _); simpl; [done|].
  by rewrite forEach_fill.
Qed.



(** The scenario of the specification, with an occupied position: after
    [A/note.md] became [B/note.md], the picture goes to the sibling name
    [B/note/img 1.png] because [B/note/img.png] exists, the document keeps its
    relative position, and the nested note stays out of the map. *)
Example fillRenameMap_scenario :
  let v := Demo.mkDemoVault
             [("B/note.md", "![](img.png)"); ("A/note/img.png", "PNG");
              ("A/note/sub/doc.pdf", "PDF"); ("A/note/inner.md", "text");
              ("B/note/img.png", "other")]
             ["A"; "A/note"; "A/note/sub"; "B"; "B/note"] in
  Demo.observe (fillRenameMap (Demo.demoApp [] []) "B/note.md" "A/note.md" (Demo.startIn v))
  = (Ok (), map_to_list (files v), elements (folders v),
     [("A/note.md", "B/note.md"); ("A/note/sub/doc.pdf", "B/note/sub/doc.pdf");
      ("A/note/img.png", "B/note/img 1.png")]).
Proof. vm_compute. reflexivity. Qed.

(** ** Canvas documents *)

Lemma rewriteNode_type m node : nodeType (rewriteNode m node) = nodeType node.
Proof.
  unfold rewriteNode. destruct (negb _); [done|].
  destruct (JsMap.get _ _) as [p|]; [|done]. by destruct (negb _).
Qed.

Lemma rewriteNode_rest m node : nodeRest (rewriteNode m node) = nodeRest node.
Proof.
  unfold rewriteNode. destruct (negb _); [done|].
  destruct (JsMap.get _ _) as [p|]; [|done]. by destruct (negb _).
Qed.

Lemma get_truthy m k p :
  forallb (λ kv, Str.truthy kv.2) m = true → JsMap.get k m = Some p → Str.truthy p = true.
Proof.
  induction m as [|[k' p'] m IH]; simpl; [done|].
  intros [Hp Hm]%andb_true_iff. destruct (String.eqb k' k); [by intros [= <-] | by apply IH].
Qed.



(** ** The host vault *)

Lemma files_createFolder v d : files (Host.createFolder v d) = files v.
Proof. unfold Host.createFolder. by destruct (Host.isRoot d). Qed.

Lemma files_pruneChain chain v : files (Host.pruneChain chain v) = files v.
Proof.
  revert v. induction chain as [|d chain IH]; intros v; simpl; [done|].
  destruct (_ && _); [|done]. by rewrite IH.
Qed.

Lemma fileExists_createFolder v d p :
  Host.fileExists (Host.createFolder v d) p = Host.fileExists v p.
Proof. unfold Host.fileExists. by rewrite files_createFolder. Qed.

Lemma fileExists_true v p : Host.fileExists v p = true ↔ is_Some (files v !! p).
Proof. unfold Host.fileExists. apply bool_decide_eq_true. Qed.

Lemma fileExists_false v p : Host.fileExists v p = false ↔ files v !! p = None.
Proof.
  unfold Host.fileExists. rewrite bool_decide_eq_false. symmetry. apply eq_None_not_Some.
Qed.

Lemma exists_split v p :
  Host.exists_ v p = false ↔ Host.fileExists v p = false ∧ Host.folderExists v p = false.
Proof. unfold Host.exists_. apply orb_false_iff. Qed.

Lemma createFolder_id v d :
  (∀ x, x ∈ Path.hierarchy d → x ∈ folders v) → Host.createFolder v d = v.
Proof.
  intros H. unfold Host.createFolder. destruct (Host.isRoot d); [done|].
  destruct v as [fs ds]. simpl in *. f_equal.
  apply set_eq. intros x. rewrite elem_of_union, elem_of_list_to_set.
  split; [intros [?|?]; auto | auto].
Qed.

Lemma elem_of_childFiles v d p :
  p ∈ Host.childFiles v d
  ↔ is_Some (files v !! p) ∧ Host.parentOf (Path.parent p) = Host.parentOf d.
Proof.
  unfold Host.childFiles. rewrite list_elem_of_filter, list_elem_of_fmap. split.
  - intros [Hp ([p' c] & -> & Hin%elem_of_map_to_list)]. eauto.
  - intros [[c Hc] Hp]. split; [done|]. exists (p, c). split; [done|].
    by apply elem_of_map_to_list.
Qed.

Lemma folderIsEmpty_false v p :
  is_Some (files v !! p) → Host.folderIsEmpty v (Path.parent p) = false.
Proof.
  intros Hp. unfold Host.folderIsEmpty. apply bool_decide_eq_false. intros [Hf _].
  assert (p ∈ Host.childFiles v (Path.parent p)) as Hin by by apply elem_of_childFiles.
  rewrite Hf in Hin. by apply elem_of_nil in Hin.
Qed.

Lemma pruneChain_parent_of_file v p :
  is_Some (files v !! p) → Host.pruneChain (Path.hierarchy (Path.parent p)) v = v.
Proof.
  intros Hp. unfold Path.hierarchy. destruct (Path.isRoot _); [done|]. simpl.
  rewrite (folderIsEmpty_false v p Hp). by rewrite andb_false_r.
Qed.

Lemma renameSafe_free file target st :
  Host.exists_ (vault st) target = false →
  renameSafe file target st
  = (Ok target,
     mkState (Host.moveFile (Host.createFolder (vault st) (Path.dirname target)) file target)
       (renameMap st) (console st)).
Proof. intros H. unfold renameSafe. run. by rewrite H. Qed.

Lemma copySafe_free file target st :
  Host.exists_ (vault st) target = false →
  copySafe file target st
  = (Ok target,
     mkState (Host.copyFile (Host.createFolder (vault st) (Path.dirname target)) file target)
       (renameMap st) (console st)).
Proof. intros H. unfold copySafe. run. by rewrite H. Qed.

Lemma files_moveFile v old new c :
  files v !! old = Some c →
  files (Host.moveFile v old new) = <[new := c]> (delete old (files v)).
Proof. intros H. unfold Host.moveFile. by rewrite H. Qed.

Lemma files_copyFile v old new c :
  files v !! old = Some c →
  files (Host.copyFile v old new) = <[new := c]> (files v).
Proof. intros H. unfold Host.copyFile. by rewrite H. Qed.

Lemma folders_moveFile v old new : folders (Host.moveFile v old new) = folders v.
Proof. unfold Host.moveFile. by destruct (files v !! old). Qed.

Lemma folderExists_moveFile v old new p :
  Host.folderExists (Host.moveFile v old new) p = Host.folderExists v p.
Proof. unfold Host.folderExists. by rewrite folders_moveFile. Qed.

Lemma deleteFile_run (this : FilesHandler) file (deleteEmptyFolders : bool) st :
  deleteFile file deleteEmptyFolders st
  = (Ok (),
     mkState
       (if deleteEmptyFolders
        then Host.pruneChain (Path.hierarchy (Path.parent file)) (Host.removeFile (vault st) file)
        else Host.removeFile (vault st) file)
       (renameMap st) (console st)).
Proof. unfold deleteFile, trashFile. run. by destruct deleteEmptyFolders. Qed.

(** ** The conflict table *)

Ltac red1 := cbn [negb vault renameMap console fst snd].

Local Arguments renameSafe : simpl never.
Local Arguments copySafe : simpl never.
Local Arguments deleteFile : simpl never.
Local Arguments deleteEmptyFolderHierarchy : simpl never.

Section ConflictTableProofs.

Variable this : FilesHandler.

Lemma linkedNotes_shared v path parents :
  (length (removeAll parents (getCachedNotesThatHaveLinkToFile (lh this) v path)) =? 0)%nat
  = negb (isShared this v path parents).
Proof.
  unfold isShared, removeAll.
  induction (getCachedNotesThatHaveLinkToFile (lh this) v path) as [|n l IH]; [done|].
  rewrite filter_cons. simpl. destruct (decide (n ∉ parents)) as [Hn | Hn].
  - by rewrite bool_decide_eq_true_2.
  - by rewrite bool_decide_eq_false_2.
Qed.

(** C1 (as the code has it). For an attachment that [moveAttachment] does
    process (an existing file that is not ignored, is not a note and is not
    already at the target), the call returns normally, the files of the vault
    afterwards and the recorded changes are those of the row of the conflict
    table for (shared, collision, deleteExisting), and the rename map is not
    touched.  In the row (shared, collision, deleteExisting = true) the files
    are untouched, and so is the whole vault when the folder of the target
    exists, but one change is recorded: the original path with the target as
    its new path. *)
Theorem moveAttachment_conflict_table (file target content : string)
    (parentNotePaths : list string) (deleteExistFiles deleteEmptyFolders : bool) (st : State) :
  files (vault st) !! file = Some content →
  isPathIgnored this file = false →
  isAttachment file = true →
  String.eqb file target = false →
  noFolderClash (vault st) file target = true →
  let v1 := prepared (vault st) target in
  let shared := isShared this v1 file parentNotePaths in
  let collision := isCollision v1 target in
  let row := codeTable v1 file target content shared collision deleteExistFiles in
  ∃ st', moveAttachment this file target parentNotePaths deleteExistFiles deleteEmptyFolders st
         = (Ok row.2, st')
    ∧ files (vault st') = row.1
    ∧ renameMap st' = renameMap st
    ∧ (shared = true → collision = true → deleteExistFiles = true →
       files (vault st') = files (vault st)
       ∧ movedAttachments row.2 = [mkChange file target]
       ∧ ((∀ d, d ∈ Path.hierarchy (Path.dirname target) → d ∈ folders (vault st)) →
          vault st' = vault st)).
Proof.
  intros Hfile Hign Hatt Hne' Hclash v1 shared collision row.
  apply andb_true_iff in Hclash as [Htf%negb_true_iff Hpf%negb_true_iff].
  fold v1 in Htf, Hpf.
  assert (files v1 !! file = Some content) as Hfile1.
  { unfold v1, prepared. by rewrite files_createFolder. }
  pose proof (getAvailablePath_free v1 target) as Hfree0.
  apply exists_split in Hfree0 as [Hufile%fileExists_false Hufolder].
  assert (Host.getAvailablePath v1 target ≠ file) as Hune by congruence.
  unfold moveAttachment. rewrite Hign, Hatt. simpl.
  rewrite Hne'.
  unfold createFolderForAttachmentFromPath, createFolderSafe.
  run. fold (prepared (vault st) target). fold v1.
  rewrite linkedNotes_shared. fold shared.
  unfold Host.getFileByPath. fold (isCollision v1 target). fold collision.
  subst row. unfold codeTable, conflictTable.
  pose proof (getAvailablePath_free v1 target) as Hfree.
  assert (∀ (r : MovedAttachmentResult) (F : gmap string string) st1,
            renameMap st1 = renameMap st →
            files (vault st1) = F →
            ∃ st', (let (r0, st'0) :=
                      (if shouldDeleteEmptyFolders this
                       then deleteEmptyFolderHierarchy (Path.parent file)
                       else λ st0 : State, (Ok (), st0)) st1 in
                    match r0 with
                    | Ok _ => (Ok r, st'0)
                    | Throw e => (Throw e, st'0)
                    | OutOfFuel => (OutOfFuel, st'0)
                    end) = (Ok r, st')
                   ∧ files (vault st') = F ∧ renameMap st' = renameMap st) as Hfinish.
  { intros r F st1 Hm HF. destruct (shouldDeleteEmptyFolders this);
      unfold deleteEmptyFolderHierarchy; run; (eexists; split; [reflexivity|]); simpl;
      by rewrite ?files_pruneChain. }
  destruct shared eqn:Hs, collision eqn:Hc, deleteExistFiles eqn:Hd; red1.
  - (* shared, collision, delete: nothing moves, the target is recorded *)
    destruct (shouldDeleteEmptyFolders this) eqn:Hprune;
      unfold deleteEmptyFolderHierarchy; run; (eexists; split; [reflexivity|]); simpl;
      rewrite ?files_pruneChain; (split; [done|]); (split; [done|]); intros _ _ _;
      (split; [unfold v1, prepared; by rewrite files_createFolder|]); (split; [done|]);
      intros Hfolders; unfold v1, prepared; rewrite (createFolder_id _ _ Hfolders);
      [by apply pruneChain_parent_of_file | done].
  - (* shared, collision, keep: move to a unique name and copy back *)
    rewrite renameSafe_free by done. red1.
    rewrite copySafe_free; red1.
    2:{ apply exists_split. split.
        - apply fileExists_false. rewrite (files_moveFile _ _ _ content)
            by by rewrite files_createFolder.
          rewrite lookup_insert_ne by done. apply lookup_delete_eq.
        - by rewrite folderExists_moveFile. }
    edestruct Hfinish as (st' & -> & HF & Hm); [| reflexivity |]; [done|].
    exists st'. split; [done|]. split; [|split; [done | done]].
    rewrite HF. simpl.
    rewrite (files_copyFile _ _ _ content).
    2:{ rewrite files_createFolder, (files_moveFile _ _ _ content)
          by by rewrite files_createFolder.
        apply lookup_insert_eq. }
    rewrite files_createFolder, (files_moveFile _ _ _ content)
      by by rewrite files_createFolder.
    rewrite files_createFolder.
    apply map_eq. intros k.
    destruct (decide (k = file)) as [-> | Hk].
    + rewrite lookup_insert_eq, lookup_insert_ne by done. done.
    + rewrite lookup_insert_ne by done.
      destruct (decide (k = Host.getAvailablePath v1 target)) as [-> | Hk'].
      * by rewrite !lookup_insert_eq.
      * rewrite !lookup_insert_ne by done. by rewrite lookup_delete_ne.
  - (* shared, no collision: copy *)
    rewrite copySafe_free by (apply exists_split; done). red1.
    edestruct Hfinish as (st' & -> & HF & Hm); [| reflexivity |]; [done|].
    exists st'. split; [done|]. split; [|split; [done | done]].
    rewrite HF. simpl. rewrite (files_copyFile _ _ _ content) by by rewrite files_createFolder.
    by rewrite files_createFolder.
  - rewrite copySafe_free by (apply exists_split; done). red1.
    edestruct Hfinish as (st' & -> & HF & Hm); [| reflexivity |]; [done|].
    exists st'. split; [done|]. split; [|split; [done | done]].
    rewrite HF. simpl. rewrite (files_copyFile _ _ _ content) by by rewrite files_createFolder.
    by rewrite files_createFolder.
  - (* sole linker, collision, delete *)
    rewrite (deleteFile_run this). red1.
    edestruct Hfinish as (st' & -> & HF & Hm); [| reflexivity |]; [done|].
    exists st'. split; [done|]. split; [|split; [done | done]].
    rewrite HF. simpl. destruct deleteEmptyFolders; by rewrite ?files_pruneChain.
  - (* sole linker, collision, keep: move to a unique name *)
    rewrite renameSafe_free by done. red1.
    edestruct Hfinish as (st' & -> & HF & Hm); [| reflexivity |]; [done|].
    exists st'. split; [done|]. split; [|split; [done | done]].
    rewrite HF. simpl. rewrite (files_moveFile _ _ _ content) by by rewrite files_createFolder.
    by rewrite files_createFolder.
  - (* sole linker, no collision: move *)
    rewrite renameSafe_free by (apply exists_split; done). red1.
    edestruct Hfinish as (st' & -> & HF & Hm); [| reflexivity |]; [done|].
    exists st'. split; [done|]. split; [|split; [done | done]].
    rewrite HF. simpl. rewrite (files_moveFile _ _ _ content) by by rewrite files_createFolder.
    by rewrite files_createFolder.
  - rewrite renameSafe_free by (apply exists_split; done). red1.
    edestruct Hfinish as (st' & -> & HF & Hm); [| reflexivity |]; [done|].
    exists st'. split; [done|]. split; [|split; [done | done]].
    rewrite HF. simpl. rewrite (files_moveFile _ _ _ content) by by rewrite files_createFolder.
    by rewrite files_createFolder.
Qed.

End ConflictTableProofs.

Lemma moveAttachment_conflict_table_witness :
  let this := Demo.demoHandler [] [("pics/shared.png", ["X.md"; "Y.md"])] false in
  let st := Demo.startIn (Demo.mkDemoVault
              [("X.md", "![](pics/shared.png)"); ("Y.md", "![](pics/shared.png)");
               ("pics/shared.png", "PNG"); ("X/shared.png", "other")] ["pics"; "X"]) in
  files (vault st) !! "pics/shared.png" = Some "PNG"
  ∧ isPathIgnored this "pics/shared.png" = false
  ∧ isAttachment "pics/shared.png" = true
  ∧ String.eqb "pics/shared.png" "X/shared.png" = false
  ∧ noFolderClash (vault st) "pics/shared.png" "X/shared.png" = true
  ∧ ∃ st', moveAttachment this "pics/shared.png" "X/shared.png" ["X.md"] false false st
           = (Ok (mkResult [mkChange "pics/shared.png" "X/shared 1.png"]
                           [mkChange "X/shared.png" "X/shared 1.png"]), st')
         ∧ renameMap st' = renameMap st.
Proof.
  intros this st.
  assert (files (vault st) !! "pics/shared.png" = Some "PNG") as H1
    by (vm_compute; reflexivity).
  assert (isPathIgnored this "pics/shared.png" = false) as H2 by reflexivity.
  assert (isAttachment "pics/shared.png" = true) as H3 by reflexivity.
  assert (String.eqb "pics/shared.png" "X/shared.png" = false) as H4 by reflexivity.
  assert (noFolderClash (vault st) "pics/shared.png" "X/shared.png" = true) as H5
    by (vm_compute; reflexivity).
  repeat (split; [assumption|]).
  destruct (moveAttachment_conflict_table this "pics/shared.png" "X/shared.png" "PNG"
              ["X.md"] false false st H1 H2 H3 H4 H5) as (st' & Hrun & _ & Hm & _).
  exists st'. split; [|exact Hm]. rewrite Hrun. vm_compute. reflexivity.
Defined.

(** The six rows on one vault: [pics/a.png] is linked from [X.md] only unless
    [Y.md] is listed as a second linker; the target is [X/a.png]. *)
Example conflict_table_rows :
  let sole := Demo.demoHandler [] [("pics/a.png", ["X.md"])] false in
  let shared := Demo.demoHandler [] [("pics/a.png", ["X.md"; "Y.md"])] false in
  let free := Demo.startIn (Demo.mkDemoVault [("pics/a.png", "A")] ["pics"]) in
  let taken := Demo.startIn (Demo.mkDemoVault [("pics/a.png", "A"); ("X/a.png", "B")]
                               ["pics"; "X"]) in
  let go this del st :=
    let r := moveAttachment this "pics/a.png" "X/a.png" ["X.md"] del false st in
    (r.1, map_to_list (files (vault r.2))) in
  go sole false free
    = (Ok (mkResult [mkChange "pics/a.png" "X/a.png"] []), [("X/a.png", "A")])
  ∧ go sole true taken
    = (Ok (mkResult [mkChange "pics/a.png" "X/a.png"] []), [("X/a.png", "B")])
  ∧ go sole false taken
    = (Ok (mkResult [mkChange "pics/a.png" "X/a 1.png"] [mkChange "X/a.png" "X/a 1.png"]),
       [("X/a.png", "B"); ("X/a 1.png", "A")])
  ∧ go shared false free
    = (Ok (mkResult [mkChange "pics/a.png" "X/a.png"] []),
       [("X/a.png", "A"); ("pics/a.png", "A")])
  ∧ go shared false taken
    = (Ok (mkResult [mkChange "pics/a.png" "X/a 1.png"] [mkChange "X/a.png" "X/a 1.png"]),
       [("X/a.png", "B"); ("X/a 1.png", "A"); ("pics/a.png", "A")])
  ∧ go shared true taken
    = (Ok (mkResult [mkChange "pics/a.png" "X/a.png"] []),
       [("X/a.png", "B"); ("pics/a.png", "A")]).
Proof. vm_compute. repeat split. Qed.

(** C1 (as the claim has it) fails in the last row: [pics/a.png] is shared
    with [Y.md], [X/a.png] exists and existing files are to be deleted.  The
    vault is left as it was, but the call does record a change, the original
    path with the target as its new path, where the table of section 4.4
    records none. *)
Lemma moveAttachment_noop_row_records_change :
  let this := Demo.demoHandler [] [("pics/a.png", ["X.md"; "Y.md"])] false in
  let v := Demo.mkDemoVault [("pics/a.png", "A"); ("X/a.png", "B")] ["pics"; "X"] in
  let r := moveAttachment this "pics/a.png" "X/a.png" ["X.md"] true false (Demo.startIn v) in
  isShared this v "pics/a.png" ["X.md"] = true
  ∧ isCollision v "X/a.png" = true
  ∧ vault r.2 = v
  ∧ r.1 = Ok (mkResult [mkChange "pics/a.png" "X/a.png"] [])
  ∧ r.1 ≠ Ok (specTable v "pics/a.png" "X/a.png" "A" true true true).2.
Proof.
  vm_compute. repeat split; try reflexivity. discriminate.
Qed.

(** ** Steps that only rewrite text *)

Lemma contentOnly_refl st : contentOnly st st.
Proof. done. Qed.

Lemma contentOnly_trans st1 st2 st3 :
  contentOnly st1 st2 → contentOnly st2 st3 → contentOnly st1 st3.
Proof. intros (? & ? & ?) (? & ? & ?). repeat split; congruence. Qed.

Lemma contentOnly_log st l msg :
  contentOnly st (mkState (vault st) (renameMap st) (console st ++ [(l, msg)])).
Proof. done. Qed.

Lemma dom_writeFile v p c : dom (files (Host.writeFile v p c)) = dom (files v).
Proof.
  unfold Host.writeFile. destruct (files v !! p) as [c0|] eqn:E; [|done]. simpl.
  rewrite dom_insert_L. apply (elem_of_dom_2 (files v)) in E.
  apply set_eq. intros x. rewrite elem_of_union, elem_of_singleton.
  split; [intros [-> | ?]; done | auto].
Qed.

Lemma folders_writeFile v p c : folders (Host.writeFile v p c) = folders v.
Proof. unfold Host.writeFile. by destruct (files v !! p). Qed.

Lemma contentOnly_write st p c :
  contentOnly st (mkState (Host.writeFile (vault st) p c) (renameMap st) (console st)).
Proof. repeat split; simpl; [apply dom_writeFile | apply folders_writeFile]. Qed.

Lemma contentOnly_fileExists st st' p :
  contentOnly st st' → Host.fileExists (vault st') p = Host.fileExists (vault st) p.
Proof.
  intros (Hd & _ & _). unfold Host.fileExists. apply bool_decide_ext.
  by rewrite <- !elem_of_dom, Hd.
Qed.

Lemma contentOnly_folderExists st st' p :
  contentOnly st st' → Host.folderExists (vault st') p = Host.folderExists (vault st) p.
Proof. intros (_ & Hf & _). unfold Host.folderExists. by rewrite Hf. Qed.

Section ProcessRename.

Variable a : App.

Lemma processBacklink_run file parentNotePath st :
  ∃ st', processBacklink a file parentNotePath st = (Ok (), st') ∧ contentOnly st st'.
Proof.
  unfold processBacklink, applyFileChanges. run.
  destruct (match Host.getFileByPath (vault st) parentNotePath with
            | Some f => Some f | None => _ end) as [parentNote|].
  - destruct (files (vault st) !! parentNote) as [content|].
    + eexists. split; [reflexivity|]. apply contentOnly_write.
    + eexists. split; [reflexivity|]. done.
  - eexists. split; [reflexivity|]. apply contentOnly_log.
Qed.

Lemma forEach_processBacklink file parents st :
  ∃ st', forEach parents (processBacklink a file) st = (Ok (), st') ∧ contentOnly st st'.
Proof.
  revert st. induction parents as [|p parents IH]; intros st.
  - exists st. split; [done | apply contentOnly_refl].
  - destruct (processBacklink_run file p st) as (st1 & Hrun & H1).
    destruct (IH st1) as (st2 & Hrest & H2).
    exists st2. split; [|by eapply contentOnly_trans].
    simpl. by rewrite (bind_ok _ _ _ _ _ Hrun).
Qed.

Lemma processOwnContent_run file oldPath st :
  readableCanvas a file →
  ∃ st', processOwnContent a file oldPath st = (Ok (), st') ∧ contentOnly st st'.
Proof.
  intros Hcanvas. unfold processOwnContent, readableCanvas in *.
  destruct (String.eqb (Str.toLowerCase (Path.extension file)) "canvas").
  - destruct Hcanvas as [? | Hcanvas]; [done|].
    unfold processWithRetry, canvasCallback. run.
    destruct (files (vault st) !! file) as [content|].
    + destruct (Hcanvas content) as [d ->].
      eexists. split; [reflexivity|]. apply contentOnly_write.
    + eexists. split; [reflexivity|]. done.
  - destruct (String.eqb (Str.toLowerCase (Path.extension file)) "md").
    + unfold updateLinksInFile. run.
      destruct (files (vault st) !! file) as [content|].
      * eexists. split; [reflexivity|]. apply contentOnly_write.
      * eexists. split; [reflexivity|]. done.
    + exists st. split; [done | apply contentOnly_refl].
Qed.

End ProcessRename.

(** ** Pruning *)

Lemma elem_of_childFolders v d p :
  p ∈ Host.childFolders v d
  ↔ p ∈ folders v ∧ Host.parentOf (Path.parent p) = Host.parentOf d.
Proof.
  unfold Host.childFolders. rewrite list_elem_of_filter, elem_of_elements. tauto.
Qed.

Lemma folderIsEmpty_true v d :
  Host.folderIsEmpty v d = true
  ↔ (∀ p, is_Some (files v !! p) → Host.parentOf (Path.parent p) ≠ Host.parentOf d)
    ∧ (∀ p, p ∈ folders v → Host.parentOf (Path.parent p) ≠ Host.parentOf d).
Proof.
  unfold Host.folderIsEmpty. rewrite bool_decide_eq_true. split.
  - intros [Hf Hd]. split; intros p Hp Heq.
    + assert (p ∈ Host.childFiles v d) as Hin by by apply elem_of_childFiles.
      rewrite Hf in Hin. by apply elem_of_nil in Hin.
    + assert (p ∈ Host.childFolders v d) as Hin by by apply elem_of_childFolders.
      rewrite Hd in Hin. by apply elem_of_nil in Hin.
  - intros [Hf Hd]. split; apply elem_of_nil_inv; intros p.
    + intros [Hp Heq]%elem_of_childFiles. by apply (Hf p).
    + intros [Hp Heq]%elem_of_childFolders. by apply (Hd p).
Qed.

Lemma folderIsEmpty_removeFolder v x d :
  Host.folderIsEmpty v d = true → Host.folderIsEmpty (Host.removeFolder v x) d = true.
Proof.
  rewrite !folderIsEmpty_true. intros [Hf Hd]. split; [done|].
  simpl. intros p [Hp _]%elem_of_difference. by apply Hd.
Qed.

Lemma folderIsEmpty_pruneChain chain v d :
  Host.folderIsEmpty v d = true → Host.folderIsEmpty (Host.pruneChain chain v) d = true.
Proof.
  revert v. induction chain as [|x chain IH]; intros v H; simpl; [done|].
  destruct (_ && _); [|done]. by apply IH, folderIsEmpty_removeFolder.
Qed.

(** What the pruning loop removes: the first [k] folders of the chain, each
    of them empty; the next folder of the chain, if any, is missing or not
    empty.  Files are never touched. *)
Lemma pruneChain_spec chain v :
  ∃ k, files (Host.pruneChain chain v) = files v
     ∧ folders (Host.pruneChain chain v) = folders v ∖ list_to_set (take k chain)
     ∧ (∀ d, d ∈ take k chain → Host.folderIsEmpty (Host.pruneChain chain v) d = true)
     ∧ (∀ d, chain !! k = Some d →
          Host.folderExists (Host.pruneChain chain v) d
          && Host.folderIsEmpty (Host.pruneChain chain v) d = false).
Proof.
  revert v. induction chain as [|x chain IH]; intros v.
  - exists 0. simpl. repeat split; [set_solver | intros d Hd; by apply elem_of_nil in Hd | done].
  - simpl. destruct (Host.folderExists v x && Host.folderIsEmpty v x) eqn:E.
    + destruct (IH (Host.removeFolder v x)) as (k & Hf & Hd & Hempty & Hstop).
      exists (S k). simpl. repeat split; [done | | | done].
      * rewrite Hd. simpl. set_solver.
      * intros d [-> | Hin]%elem_of_cons; [|by apply Hempty].
        apply andb_true_iff in E as [_ E].
        by apply folderIsEmpty_pruneChain, folderIsEmpty_removeFolder.
    + exists 0. simpl. repeat split; [set_solver | intros d Hd; by apply elem_of_nil in Hd |].
      by intros d [= <-].
Qed.

(** ** One entry of the rename map *)

Lemma exists_createFolder_contentOnly st st' d p :
  contentOnly st st' →
  Host.exists_ (Host.createFolder (vault st') d) p
  = Host.exists_ (Host.createFolder (vault st) d) p.
Proof.
  intros (Hd & Hf & _). unfold Host.exists_, Host.fileExists, Host.folderExists.
  rewrite !files_createFolder. f_equal.
  - apply bool_decide_ext. by rewrite <- !elem_of_dom, Hd.
  - unfold Host.createFolder. destruct (Host.isRoot d); simpl; by rewrite Hf.
Qed.

Lemma folders_createFolder v d :
  folders (Host.createFolder v d) = folders v ∪ list_to_set (Path.hierarchy d).
Proof.
  unfold Host.createFolder, Path.hierarchy, Host.isRoot.
  destruct (Path.isRoot d); simpl; [set_solver | done].
Qed.

Section ProcessRenameEntry.

Variable a : App.


End ProcessRenameEntry.



(** ** Deleting empty folders *)

Section DeleteEmptyFolders.

Variable this : FilesHandler.

Lemma deleteEmptyFolders_unfold fuel dirName :
  deleteEmptyFolders this (S fuel) dirName
  = if isPathIgnored this dirName then mret ()
    else
      let dirName := stripDotSlash dirName in
      v ← getVault;
      let list := Host.listSafe v dirName in
      forEach list.2 (deleteEmptyFolders this fuel) ;;
      v ← getVault;
      let list := Host.listSafe v dirName in
      if (length list.1 =? 0)%nat && (length list.2 =? 0)%nat then
        logMsg Log (consoleLogPrefix this +:+ "delete empty folder: " +:+ dirName) ;;
        if Host.exists_ v dirName then
          tryCatch (adapterRmdir (app this) dirName)
            (λ e, v ← getVault;
                  if Host.exists_ v dirName then throw e else mret ())
        else mret ()
      else mret ().
Proof. reflexivity. Qed.

Lemma listSafe_empty v d :
  Host.folderExists v d = true →
  (length (Host.listSafe v d).1 =? 0)%nat && (length (Host.listSafe v d).2 =? 0)%nat
  = Host.folderIsEmpty v d.
Proof.
  intros H. unfold Host.listSafe, Host.folderIsEmpty. rewrite H. simpl.
  by destruct (Host.childFiles v d), (Host.childFolders v d).
Qed.

Lemma listSafe_missing v d : Host.folderExists v d = false → Host.listSafe v d = ([], []).
Proof. intros H. unfold Host.listSafe. by rewrite H. Qed.

Lemma folderExists_elem v d : d ∈ folders v → Host.folderExists v d = true.
Proof.
  intros H. unfold Host.folderExists. rewrite bool_decide_eq_true_2 by done.
  apply orb_true_r.
Qed.

(** C8 (as the code has it). [deleteEmptyFolders] on a folder [d] that is
    not ignored, once its subfolders have been processed (leaving the state
    [st1]):
    - [d] is kept, and nothing else happens, if it has a child file or a
      child folder;
    - [d] is removed if it has neither and no other writer interferes;
    - if the removal fails and [d] still exists (another writer has put a
      file into it), the error is thrown on to the caller;
    - if the removal fails because [d] is gone already, the error is
      swallowed and the call returns normally;
    and on a path that does not exist the call returns normally and leaves the
    vault as it is, however often it is repeated. *)
Theorem deleteEmptyFolders_entry (fuel : nat) (dirName : string) (st st1 : State) :
  isPathIgnored this dirName = false →
  let d := stripDotSlash dirName in
  let note := (Log, consoleLogPrefix this +:+ "delete empty folder: " +:+ d) in
  (Host.exists_ (vault st) d = false →
   deleteEmptyFolders this (S fuel) dirName st
   = (Ok (), mkState (vault st) (renameMap st) (console st ++ [note])))
  ∧ (forEach (Host.listSafe (vault st) d).2 (deleteEmptyFolders this fuel) st = (Ok (), st1) →
     d ∈ folders (vault st1) → Host.isRoot d = false → files (vault st1) !! d = None →
     let v1 := vault st1 in
     (Host.folderIsEmpty v1 d = false →
      deleteEmptyFolders this (S fuel) dirName st = (Ok (), st1))
     ∧ (Host.folderIsEmpty v1 d = true → rmdirRaces (app this) v1 d = NoRace →
        deleteEmptyFolders this (S fuel) dirName st
        = (Ok (), mkState (Host.removeFolder v1 d) (renameMap st1) (console st1 ++ [note])))
     ∧ (Host.folderIsEmpty v1 d = true →
        ∀ name content, rmdirRaces (app this) v1 d = Filled name content →
        ∃ st', deleteEmptyFolders this (S fuel) dirName st
               = (Throw "ENOTEMPTY: directory not empty", st')
             ∧ d ∈ folders (vault st'))
     ∧ (Host.folderIsEmpty v1 d = true → rmdirRaces (app this) v1 d = Removed →
        ∃ st', deleteEmptyFolders this (S fuel) dirName st = (Ok (), st')
             ∧ d ∉ folders (vault st'))).
Proof.
  intros Hign d note. rewrite deleteEmptyFolders_unfold, Hign. fold d. split.
  - intros Hmiss. apply orb_false_iff in Hmiss as Hmiss'. destruct Hmiss' as [_ Hfolder].
    run. rewrite (listSafe_missing _ _ Hfolder). simpl.
    rewrite (listSafe_missing _ _ Hfolder). simpl. by rewrite Hmiss.
  - intros Hsub Hd Hroot Hfile v1. subst v1.
    pose proof (folderExists_elem _ _ Hd) as Hfolder.
    assert (Host.exists_ (vault st1) d = true) as Hex.
    { unfold Host.exists_. rewrite Hfolder. apply orb_true_r. }
    run. rewrite Hsub. rewrite (listSafe_empty _ _ Hfolder).
    repeat split.
    + by intros ->.
    + intros He Hrace. rewrite He, Hex. unfold adapterRmdir. run. rewrite Hrace.
      unfold Host.canRmdir. rewrite Hroot, He.
      by rewrite bool_decide_eq_true_2 by done.
    + intros -> name content Hrace. rewrite Hex. unfold adapterRmdir. run. rewrite Hrace.
      unfold Host.exists_ at 1, Host.folderExists. simpl.
      rewrite (bool_decide_eq_true_2 (d ∈ folders (vault st1))) by done.
      rewrite !orb_true_r. eexists. split; [reflexivity | done].
    + intros -> Hrace. rewrite Hex. unfold adapterRmdir. run. rewrite Hrace.
      unfold Host.exists_ at 1, Host.folderExists, Host.fileExists. simpl. rewrite Hroot.
      rewrite (bool_decide_eq_false_2 (is_Some _)) by (rewrite Hfile; by intros [? ?]).
      rewrite bool_decide_eq_false_2 by set_solver. simpl.
      eexists. split; [reflexivity|]. simpl. set_solver.
Qed.

End DeleteEmptyFolders.

Lemma deleteEmptyFolders_entry_witness :
  let this := Demo.demoHandler [] [] false in
  let st := Demo.startIn (Demo.mkDemoVault [("N.md", "text"); ("Q/keep.png", "PNG")]
                            ["P"; "P/E"; "Q"]) in
  let st1 := (forEach (Host.listSafe (vault st) "P").2 (deleteEmptyFolders this 1) st).2 in
  isPathIgnored this "./P" = false
  ∧ forEach (Host.listSafe (vault st) "P").2 (deleteEmptyFolders this 1) st = (Ok (), st1)
  ∧ "P" ∈ folders (vault st1) ∧ Host.isRoot "P" = false ∧ files (vault st1) !! "P" = None
  ∧ Host.folderIsEmpty (vault st1) "P" = true
  ∧ rmdirRaces (app this) (vault st1) "P" = NoRace
  ∧ Demo.observe (deleteEmptyFolders this 2 "./P" st)
    = (Ok (), [("Q/keep.png", "PNG"); ("N.md", "text")], ["Q"], []).
Proof.
  intros this st st1.
  assert (isPathIgnored this "./P" = false) as H1 by reflexivity.
  assert (forEach (Host.listSafe (vault st) "P").2 (deleteEmptyFolders this 1) st
          = (Ok (), st1)) as H2 by (vm_compute; reflexivity).
  assert ("P" ∈ folders (vault st1)) as H3 by (vm_compute; reflexivity).
  assert (Host.isRoot "P" = false) as H4 by reflexivity.
  assert (files (vault st1) !! "P" = None) as H5 by (vm_compute; reflexivity).
  assert (Host.folderIsEmpty (vault st1) "P" = true) as H6 by (vm_compute; reflexivity).
  assert (rmdirRaces (app this) (vault st1) "P" = NoRace) as H7 by reflexivity.
  repeat (split; [assumption|]).
  destruct (proj2 (deleteEmptyFolders_entry this 1 "./P" st st1 H1) H2 H3 H4 H5)
    as (_ & Hremoved & _).
  rewrite (Hremoved H6 H7). vm_compute. reflexivity.
Defined.

(** A whole vault: the empty folders go, innermost first, and the folders
    that hold a file stay. *)
Example deleteEmptyFolders_vault :
  let this := Demo.demoHandler [] [] false in
  let st := Demo.startIn (Demo.mkDemoVault [("N.md", "text"); ("Q/R/keep.png", "PNG")]
                            ["P"; "P/E"; "P/E/F"; "Q"; "Q/R"; "Q/S"]) in
  Demo.observe (deleteEmptyFolders this 5 "/" st)
  = (Ok (), [("Q/R/keep.png", "PNG"); ("N.md", "text")], ["Q/R"; "Q"], []).
Proof. vm_compute. reflexivity. Qed.

(** C8 (as the claim has it) fails on the removal error: [E] is empty when
    it is listed, another writer puts [late.txt] into it before it is removed,
    the removal fails, the folder still exists, and the error is thrown to the
    caller of [deleteEmptyFolders]. *)
Lemma deleteEmptyFolders_error_is_fatal :
  let this := Demo.demoHandlerWith [] [] [("E", Filled "late.txt" "x")] false in
  let st := Demo.startIn (Demo.mkDemoVault [("N.md", "text")] ["E"]) in
  let r := deleteEmptyFolders this 2 "E" st in
  Host.folderIsEmpty (vault st) "E" = true
  ∧ r.1 = Throw "ENOTEMPTY: directory not empty"
  ∧ Host.exists_ (vault r.2) "E" = true
  ∧ r.1 ≠ Ok ().
Proof. vm_compute. repeat split. discriminate. Qed.

(** ** The collector *)

Section Collector.

Variable this : FilesHandler.

(** [moveAttachment] always returns; it records nothing and leaves the vault
    alone, or it records one change, of the file it was given. *)
Lemma moveAttachment_shape file target parents (del delE : bool) st :
  ∃ r st', moveAttachment this file target parents del delE st = (Ok r, st')
    ∧ ((movedAttachments r = [] ∧ renamedFiles r = [] ∧ vault st' = vault st)
       ∨ ∃ np, movedAttachments r = [mkChange file np]).
Proof.
  unfold moveAttachment, createFolderForAttachmentFromPath, createFolderSafe,
    renameSafe, copySafe, deleteFile, trashFile, deleteEmptyFolderHierarchy,
    Host.getFileByPath.
  run.
  repeat match goal with
         | |- context [if ?c then _ else _] => destruct c
         end;
    (do 2 eexists; split; [reflexivity|]); simpl; eauto.
Qed.

Lemma getCustomizedNewPath_state notePath file id st r st' :
  getCustomizedNewPath this notePath file id st = (r, st') → st' = st.
Proof.
  unfold getCustomizedNewPath, Host.getFileByPath. run.
  destruct (files (vault st) !! file); [|by intros [= _ <-]].
  destruct (Host.fileExists (vault st) notePath); by intros [= _ <-].
Qed.

Lemma existsb_oldPath p result :
  existsb (λ x, String.eqb (oldPath x) p) (movedAttachments result) = false →
  p ∉ oldPaths result.
Proof.
  unfold oldPaths. induction (movedAttachments result) as [|x l IH]; simpl.
  - intros _ H. by apply elem_of_nil in H.
  - intros [Hx Hl]%orb_false_iff [-> | Hin]%elem_of_cons.
    + by rewrite String.eqb_refl in Hx.
    + by apply IH.
Qed.

Hypothesis Hagree : resolversAgree this.

Lemma collectLink_step notePath id (del delE customized : bool) result l st result' st' :
  collectLink this notePath id del delE customized result l st = (Ok result', st') →
  (oldPaths result' = oldPaths result ∧ vault st' = vault st)
  ∨ ∃ file np, extractLinkFile (app this) (vault st) l notePath = Some file
       ∧ movedAttachments result' = movedAttachments result ++ [mkChange file np]
       ∧ file ∉ oldPaths result.
Proof.
  unfold collectLink.
  destruct (negb (Str.truthy _)); [intros [= <- <-]; by left|].
  destruct (existsb _ _) eqn:Hseen; [intros [= <- <-]; by left|].
  apply existsb_oldPath in Hseen.
  run. destruct (extractLinkFile (app this) (vault st) l notePath) as [file|] eqn:Hfile;
    [|intros [= <- <-]; by left].
  rewrite (Hagree _ _ _ _ Hfile) in Hseen.
  destruct (negb (isAttachment file)); [intros [= <- <-]; by left|].
  assert (∀ target st0, vault st0 = vault st →
            (let (r, st'0) := moveAttachment this file target [notePath] del delE st0 in
             match r with
             | Ok a =>
                 (Ok (mkResult (movedAttachments result ++ movedAttachments a)
                               (renamedFiles result ++ renamedFiles a)), st'0)
             | Throw e => (Throw e, st'0)
             | OutOfFuel => (OutOfFuel, st'0)
             end) = (Ok result', st') →
            (oldPaths result' = oldPaths result ∧ vault st' = vault st)
            ∨ ∃ file0 np, Some file = Some file0
                 ∧ movedAttachments result' = movedAttachments result ++ [mkChange file0 np]
                 ∧ file0 ∉ oldPaths result) as Hmove.
  { intros target st0 Hv.
    destruct (moveAttachment_shape file target [notePath] del delE st0)
      as (r & st1 & -> & [(Hm & Hr & Hv1) | (np & Hm)]); intros [= <- <-].
    - left. unfold oldPaths. simpl. rewrite Hm, app_nil_r. split; congruence.
    - right. exists file, np. simpl. by rewrite Hm. }
  destruct (negb customized).
  - by apply Hmove.
  - destruct (getCustomizedNewPath this notePath file id st) as [[p| |] st0] eqn:Hp;
      [|by intros [= _ _]..].
    apply getCustomizedNewPath_state in Hp as ->. by apply Hmove.
Qed.

Lemma collectLink_NoDup notePath id (del delE customized : bool) result l st result' st' :
  collectLink this notePath id del delE customized result l st = (Ok result', st') →
  NoDup (oldPaths result) → NoDup (oldPaths result').
Proof.
  intros [[-> _] | (file & np & _ & Hm & Hfresh)]%collectLink_step Hnd; [done|].
  unfold oldPaths in *. rewrite Hm, fmap_app. simpl.
  apply NoDup_app. split; [done|]. split; [|apply NoDup_singleton].
  intros x Hx [-> | Hin]%elem_of_cons; [done | by apply elem_of_nil in Hin].
Qed.

Lemma collectLinks_NoDup notePath id (del delE customized : bool) links result st result' st' :
  collectLinks this notePath id del delE customized links result st = (Ok result', st') →
  NoDup (oldPaths result) → NoDup (oldPaths result').
Proof.
  revert result st. induction links as [|l links IH]; intros result st; simpl.
  - by intros [= <- <-].
  - unfold mbind, M_bind.
    destruct (collectLink this notePath id del delE customized result l st)
      as [[r1| |] st1] eqn:Hstep; [|by intros [= _ _]..].
    intros Hrest Hnd. eapply IH; [exact Hrest|]. by eapply collectLink_NoDup.
Qed.

Lemma collectLink_total notePath id (del delE : bool) result l st :
  ∃ result' st', collectLink this notePath id del delE false result l st = (Ok result', st').
Proof.
  unfold collectLink.
  destruct (negb (Str.truthy _)); [by eauto|].
  destruct (existsb _ _); [by eauto|].
  run. destruct (extractLinkFile (app this) (vault st) l notePath) as [file|]; [|by eauto].
  destruct (negb (isAttachment file)); [by eauto|]. simpl.
  destruct (moveAttachment_shape file
              (getAttachmentFilePath (app this) (vault st) file notePath)
              [notePath] del delE (mkState (vault st) (renameMap st) (console st)))
    as (r & st1 & Hrun & _).
  rewrite state_eta in Hrun. rewrite Hrun. by eauto.
Qed.

Lemma collectLinks_total notePath id (del delE : bool) links result st :
  ∃ result' st',
    collectLinks this notePath id del delE false links result st = (Ok result', st').
Proof.
  revert result st. induction links as [|l links IH]; intros result st; simpl.
  - by eauto.
  - destruct (collectLink_total notePath id del delE result l st) as (r1 & st1 & Hstep).
    rewrite (bind_ok _ _ _ _ _ Hstep). apply IH.
Qed.


End Collector.

Lemma demo_resolversAgree caches linked races prune :
  resolversAgree (Demo.demoHandlerWith caches linked races prune).
Proof.
  intros v l notePath file. simpl. unfold Host.getFileByPath.
  destruct (Host.fileExists _ _); by intros [= <-].
Qed.


(** ** The life cycle of the rename map *)

(** C4. The note [A/n.md] has been moved to [B/n.md]; its old attachment
    folder holds [img.png] and [img 1.png], and [B/n/img.png] exists already.
    The cascade starts on an empty rename map.  Both pictures are given the
    new path [B/n/img 1.png]; the first move succeeds, the second is refused
    by the host, and [handleRename] ends, through its [finally] block, with
    the entry of the second picture still in the rename map.  From then on
    the guard of [handleRename] drops every notification: the rename of
    [C/old.md] to [C/new.md] changes nothing. *)
Theorem handleRename_leaves_stale_entry :
  let a := Demo.demoApp [] [] in
  let st := Demo.startIn (Demo.mkDemoVault
              [("B/n.md", "![](img.png)"); ("A/n/img.png", "one"); ("A/n/img 1.png", "two");
               ("B/n/img.png", "three")]
              ["A"; "A/n"; "B"; "B/n"]) in
  let r := handleRename a (TFile "B/n.md") "A/n.md" st in
  renameMap st = []
  ∧ r.1 = Throw "Destination file already exists!"
  ∧ renameMap r.2 = [("A/n/img 1.png", "B/n/img 1.png")]
  ∧ Host.fileExists (vault r.2) "A/n/img 1.png" = true
  ∧ ∀ later, handleRename a (TFile "C/new.md") "C/old.md"
               (mkState (vault r.2) (renameMap r.2) later)
             = (Ok (), mkState (vault r.2) (renameMap r.2) later).
Proof.
  intros a st r.
  assert (renameMap r.2 = [("A/n/img 1.png", "B/n/img 1.png")]) as Hmap
    by (vm_compute; reflexivity).
  split; [reflexivity|]. split; [vm_compute; reflexivity|]. split; [exact Hmap|].
  split; [vm_compute; reflexivity|].
  intros later. apply handleRename_guard. simpl. by rewrite Hmap.
Qed.

(** *** On a normal return the map is empty *)

Lemma elem_of_set k v m k' v' :
  (k', v') ∈ JsMap.set k v m → (k', v') ∈ m ∨ k' = k.
Proof.
  induction m as [|[k0 v0] m IH]; simpl.
  - intros [= -> ->]%list_elem_of_singleton. by right.
  - destruct (String.eqb k0 k).
    + intros [[= -> ->] | Hin]%elem_of_cons; [by right | left; by right].
    + intros [[= -> ->] | Hin]%elem_of_cons; [left; by left|].
      destruct (IH Hin) as [? | ?]; [left; by right | by right].
Qed.

Lemma keys_set k v m k' : k' ∈ (JsMap.set k v m).*1 ↔ k' = k ∨ k' ∈ m.*1.
Proof.
  induction m as [|[k0 v0] m IH]; simpl.
  - rewrite list_elem_of_singleton. split; [by left | intros [? | H]; [done | by apply elem_of_nil in H]].
  - destruct (String.eqb k0 k) eqn:E; simpl; rewrite !elem_of_cons.
    + apply eqb_true in E as ->. tauto.
    + rewrite IH. tauto.
Qed.

Lemma NoDup_set k v m : NoDup m.*1 → NoDup (JsMap.set k v m).*1.
Proof.
  induction m as [|[k0 v0] m IH]; simpl; [intros _; apply NoDup_singleton|].
  intros [Hk0 Hm]%NoDup_cons. destruct (String.eqb k0 k) eqn:E; simpl.
  - apply eqb_true in E as ->. by apply NoDup_cons.
  - apply NoDup_cons. split; [|by apply IH].
    rewrite keys_set. intros [-> | ?]; [|done]. by rewrite String.eqb_refl in E.
Qed.

Lemma get_None_keys k m : JsMap.get k m = None ↔ k ∉ m.*1.
Proof.
  induction m as [|[k0 v0] m IH]; simpl.
  - split; [intros _ H; by apply elem_of_nil in H | done].
  - rewrite not_elem_of_cons. destruct (String.eqb k0 k) eqn:E.
    + apply eqb_true in E as ->. split; [done | by intros [? _]].
    + apply eqb_false in E. rewrite IH. split; [by intros ?; split | by intros [_ ?]].
Qed.

Lemma keys_empty (m : list (string * string)) : (∀ k, k ∉ m.*1) → m = [].
Proof.
  destruct m as [|[k v] m]; [done|]. intros H. exfalso. apply (H k). by left.
Qed.

Lemma keys_delete k m k' : k' ∈ (JsMap.delete k m).*1 ↔ k' ≠ k ∧ k' ∈ m.*1.
Proof.
  unfold JsMap.delete. rewrite !list_elem_of_fmap. split.
  - intros ([k0 v0] & -> & [Hp Hin]%list_elem_of_filter). simpl in *.
    apply negb_true_iff, eqb_false in Hp. split; [done|]. by exists (k0, v0).
  - intros [Hne ([k0 v0] & -> & Hin)]. exists (k0, v0). split; [done|].
    apply list_elem_of_filter. split; [|done]. simpl in *.
    by apply negb_true_iff, eqb_false.
Qed.

Section NormalReturn.

Variable a : App.

Lemma processOwnContent_ok file oldPath st st' :
  processOwnContent a file oldPath st = (Ok (), st') → contentOnly st st'.
Proof.
  unfold processOwnContent.
  destruct (String.eqb (Str.toLowerCase (Path.extension file)) "canvas").
  - unfold processWithRetry, canvasCallback. run.
    destruct (files (vault st) !! file) as [content|]; [|by intros [= <-]].
    destruct (parseCanvas a content); [|by intros [= _]].
    intros [= <-]. apply contentOnly_write.
  - destruct (String.eqb (Str.toLowerCase (Path.extension file)) "md").
    + unfold updateLinksInFile. run.
      destruct (files (vault st) !! file) as [content|]; intros [= <-];
        [apply contentOnly_write | done].
    + by intros [= <-].
Qed.

(** What a successful [processRename] does to the map and to the other files. *)
Lemma processRename_ok oldPath newPath st st' :
  processRename a oldPath newPath st = (Ok (), st') →
  (Host.fileExists (vault st) oldPath = true →
   renameMap st' = JsMap.delete oldPath (renameMap st))
  ∧ (Host.fileExists (vault st) oldPath = false → renameMap st' = renameMap st)
  ∧ (∀ p, p ≠ oldPath → Host.fileExists (vault st) p = true →
          Host.fileExists (vault st') p = true).
Proof.
  unfold processRename, Host.getFileByPath. run.
  destruct (Host.fileExists (vault st) oldPath) eqn:Ho.
  - destruct (forEach_processBacklink a oldPath
                (getBacklinksForFile a (vault st) oldPath).*1 st) as (st1 & -> & H1).
    destruct (processOwnContent a oldPath oldPath st1) as [[[]| |] st2] eqn:Hown;
      [|by intros [= _]..].
    apply processOwnContent_ok in Hown as H2.
    pose proof (contentOnly_trans _ _ _ H1 H2) as H12.
    unfold createFolderSafe, vaultRename, removeEmptyFolderHierarchy. run.
    destruct (Host.exists_ _ newPath); [by intros [= _]|].
    intros [= <-]. simpl. repeat split; [by destruct H12 as (_ & _ & ->) | done |].
    intros p Hp Hex. rewrite <- (contentOnly_fileExists _ _ _ H12) in Hex.
    apply fileExists_true in Hex as [c Hc].
    apply fileExists_true. rewrite files_pruneChain.
    unfold Host.moveFile. rewrite files_createFolder.
    destruct (files (vault st2) !! oldPath) as [c0|]; simpl; [|by rewrite files_createFolder; eauto].
    destruct (decide (p = newPath)) as [-> | Hn].
    + rewrite lookup_insert_eq. eauto.
    + rewrite lookup_insert_ne, lookup_delete_ne by done. eauto.
  - destruct (Host.fileExists (vault st) newPath) eqn:Hn.
    + destruct (forEach_processBacklink a newPath
                  (getBacklinksForFile a (vault st) newPath).*1 st) as (st1 & -> & H1).
      destruct (processOwnContent a newPath oldPath st1) as [[[]| |] st2] eqn:Hown;
        [|by intros [= _]..].
      apply processOwnContent_ok in Hown as H2.
      pose proof (contentOnly_trans _ _ _ H1 H2) as H12.
      intros [= <-]. repeat split; [done | by destruct H12 as (_ & _ & ->) |].
      intros p _ Hex. by rewrite (contentOnly_fileExists _ _ _ H12).
    + intros [= <-]. by repeat split.
Qed.

Lemma forEach_processRename_ok seed entries st st' :
  forEach entries (λ '(oldPath2, newPath2), processRename a oldPath2 newPath2) st
  = (Ok (), st') →
  NoDup entries.*1 →
  (∀ o, o ∈ entries.*1 → o ≠ seed → Host.fileExists (vault st) o = true) →
  ∀ k, k ∈ (renameMap st').*1 → k ∈ (renameMap st).*1 ∧ (k = seed ∨ k ∉ entries.*1).
Proof.
  revert st. induction entries as [|[o n] entries IH]; intros st; simpl.
  - intros [= <-] _ _ k Hk. split; [done|]. right. apply not_elem_of_nil.
  - unfold mbind, M_bind.
    destruct (processRename a o n st) as [[[]| |] st1] eqn:Hstep; [|by intros [= _]..].
    apply processRename_ok in Hstep as (Hdel & Hkeep & Hfiles).
    intros Hrest [Ho Hnd]%NoDup_cons Hexist k Hk.
    destruct (IH st1 Hrest Hnd) with (k := k) as [Hk1 Hside]; [|done|].
    { intros o' Ho' Hseed. apply Hfiles; [by intros -> | apply Hexist; [by right | done]]. }
    destruct (Host.fileExists (vault st) o) eqn:Hex.
    + rewrite (Hdel eq_refl) in Hk1. apply keys_delete in Hk1 as [Hne Hk0].
      split; [done|]. destruct Hside as [-> | Hside]; [by left|].
      right. by apply not_elem_of_cons.
    + rewrite (Hkeep eq_refl) in Hk1. split; [done|].
      destruct (decide (o = seed)) as [-> | Hseed].
      * destruct (decide (k = seed)) as [-> | ?]; [by left|].
        right. apply not_elem_of_cons. by destruct Hside.
      * rewrite Hexist in Hex; [done | by left | done].
Qed.

Lemma cascade_keys v oldF newF children m k :
  k ∈ (fold_left (cascadeStep v oldF newF) children m).*1 → k ∈ m.*1 ∨ k ∈ children.
Proof.
  revert m. induction children as [|c children IH]; intros m; simpl; [by left|].
  intros [Hk | Hk]%IH; [|right; by right].
  unfold cascadeStep in Hk. destruct (moves oldF newF c); [|by left].
  apply keys_set in Hk as [-> | ?]; [right; by left | by left].
Qed.

Lemma cascade_NoDup v oldF newF children m :
  NoDup m.*1 → NoDup (fold_left (cascadeStep v oldF newF) children m).*1.
Proof.
  revert m. induction children as [|c children IH]; intros m Hm; simpl; [done|].
  apply IH. unfold cascadeStep. destruct (moves oldF newF c); [by apply NoDup_set | done].
Qed.

Lemma cascadeOf_keys v file oldPath k :
  k ∈ (cascadeOf a v file oldPath []).*1 → k = oldPath ∨ Host.fileExists v k = true.
Proof.
  unfold cascadeOf. destruct (_ && _ && _).
  - intros [Hk | Hk]%cascade_keys.
    + left. simpl in Hk. by apply list_elem_of_singleton in Hk.
    + right. apply elem_of_descendantFiles in Hk as [Hk _]. by apply fileExists_true.
  - simpl. intros Hk%list_elem_of_singleton. by left.
Qed.

Lemma cascadeOf_NoDup v file oldPath : NoDup (cascadeOf a v file oldPath []).*1.
Proof.
  unfold cascadeOf. destruct (_ && _ && _); [apply cascade_NoDup|]; apply NoDup_singleton.
Qed.

(** Whenever [handleRename], started on an empty rename map, returns
    normally, the rename map is empty again. *)
Theorem handleRename_normal_return_empties_map (file : TAbstractFile) (oldPath : string)
    (st st' : State) :
  renameMap st = [] →
  handleRename a file oldPath st = (Ok (), st') →
  renameMap st' = [].
Proof.
  intros Hm. unfold handleRename. run. rewrite Hm. simpl.
  destruct file as [file | folder]; [|by intros [= <-]].
  rewrite fillRenameMap_run. simpl. rewrite Hm.
  set (m := cascadeOf a (vault st) file oldPath []).
  destruct (forEach m _ _) as [[[]| |] st2] eqn:Hloop; [|by intros [= _]..].
  intros [= <-]. cbn [renameMap].
  apply keys_empty. intros k [Hne Hk]%keys_delete.
  assert (∀ o, o ∈ m.*1 → o ≠ oldPath →
            Host.fileExists (vault (mkState (vault st) m
                                      (console st ++ [(Debug, "Handle Rename")]))) o = true)
    as Hexist.
  { simpl. intros o Ho Hseed. by apply cascadeOf_keys in Ho as [-> | Ho]. }
  destruct (forEach_processRename_ok oldPath m _ _ Hloop (cascadeOf_NoDup _ _ _) Hexist k Hk)
    as [Hin [-> | Hout]]; [done | by apply Hout].
Qed.

End NormalReturn.

(** ** Splitting and joining *)

Lemma splitOn_cons sep c s :
  Ascii.eqb c sep = false → Str.splitOn sep s = [s] →
  Str.splitOn sep (String c s) = [String c s].
Proof. intros Hc Hs. simpl. by rewrite Hc, Hs. Qed.

Lemma splitOn_pieces sep s : Forall (λ x, Str.splitOn sep x = [x]) (Str.splitOn sep s).
Proof.
  induction s as [|c s IH]; simpl; [by repeat constructor|].
  destruct (Ascii.eqb c sep) eqn:Hc; [by constructor|].
  destruct (Str.splitOn sep s) as [|h t].
  - constructor; [simpl; by rewrite Hc | constructor].
  - apply Forall_cons in IH as [Hh Ht]. constructor; [by apply splitOn_cons | done].
Qed.

Lemma splitOn_ne_nil sep s : Str.splitOn sep s ≠ [].
Proof.
  destruct s as [|c s]; simpl; [done|].
  destruct (Ascii.eqb c sep); [done|]. by destruct (Str.splitOn sep s).
Qed.

Lemma splitOn_app sep x rest :
  Str.splitOn sep x = [x] →
  Str.splitOn sep (x +:+ String sep rest) = x :: Str.splitOn sep rest.
Proof.
  induction x as [|c x IH]; intros Hx.
  - rewrite string_app_nil_l. simpl. by rewrite Ascii.eqb_refl.
  - rewrite string_app_cons. simpl in *.
    destruct (Ascii.eqb c sep); [by simplify_eq|].
    destruct (Str.splitOn sep x) as [|h t] eqn:E.
    + injection Hx as <-. by rewrite IH.
    + injection Hx as -> ->. by rewrite IH.
Qed.

Lemma splitOn_joinWith sep xs :
  xs ≠ [] → Forall (λ x, Str.splitOn sep x = [x]) xs →
  Str.splitOn sep (Str.joinWith (String sep "") xs) = xs.
Proof.
  induction xs as [|x xs IH]; [done|]. intros _ [Hx Hxs]%Forall_cons.
  destruct xs as [|y xs]; [done|].
  change (Str.joinWith (String sep "") (x :: y :: xs))
    with (x +:+ String sep "" +:+ Str.joinWith (String sep "") (y :: xs)).
  change (String sep "" +:+ Str.joinWith (String sep "") (y :: xs))
    with (String sep (Str.joinWith (String sep "") (y :: xs))).
  rewrite splitOn_app by done. by rewrite IH.
Qed.

(** A folder whose parent is not the root lies one level below its parent. *)
Lemma depth_parent g :
  Path.isRoot (Path.parent g) = false → depth g = S (depth (Path.parent g)).
Proof.
  unfold Path.parent, depth, Path.segments.
  pose proof (splitOn_pieces "/" g) as Hpieces.
  rewrite <- (length_rev (Str.splitOn "/" g)).
  apply Forall_rev in Hpieces.
  destruct (rev (Str.splitOn "/" g)) as [|last [|x rest]]; [done..|].
  intros _. apply Forall_cons in Hpieces as [_ Hrest]. apply Forall_rev in Hrest.
  change "/" with (String "/"%char "") at 1.
  rewrite splitOn_joinWith; [by rewrite length_rev | | done].
  intros Hnil. apply (f_equal length) in Hnil. rewrite length_rev in Hnil. done.
Qed.

(** ** Enough fuel *)

Section Termination.

Variable this : FilesHandler.
Variable maxDepth : nat.

Lemma stripDotSlash_id g : Str.startsWith g "./" = false → stripDotSlash g = g.
Proof. intros H. unfold stripDotSlash. by rewrite H. Qed.

Lemma nesting_child v d g :
  folderNamesOk maxDepth v → g ∈ Host.childFolders v d →
  nesting maxDepth g < nesting maxDepth d.
Proof.
  intros Hok [Hg Hparent]%elem_of_childFolders.
  destruct (Hok g Hg) as (Hroot & _ & Hdepth).
  unfold nesting. rewrite Hroot. unfold Host.parentOf, Host.isRoot in Hparent.
  destruct (Path.isRoot d) eqn:Hd; [lia|].
  destruct (Path.isRoot (Path.parent g)) eqn:Hp; [by subst d|].
  subst d. rewrite (depth_parent g Hp) in *. lia.
Qed.

Lemma folderNamesOk_subseteq v v' :
  folders v' ⊆ folders v → folderNamesOk maxDepth v → folderNamesOk maxDepth v'.
Proof. intros Hsub Hok g Hg. apply Hok. by apply Hsub. Qed.

Lemma adapterRmdir_folders d st r st' :
  adapterRmdir (app this) d st = (r, st') →
  r ≠ OutOfFuel ∧ folders (vault st') ⊆ folders (vault st).
Proof.
  unfold adapterRmdir. run.
  destruct (rmdirRaces (app this) (vault st) d).
  - destruct (Host.canRmdir (vault st) d); intros [= <- <-]; (split; [done|]); simpl;
      set_solver.
  - intros [= <- <-]. split; [done|]. simpl. set_solver.
  - intros [= <- <-]. split; [done|]. simpl. set_solver.
Qed.

Lemma forEach_enough fuel gs st :
  (∀ d st, folderNamesOk maxDepth (vault st) → nesting maxDepth (stripDotSlash d) < fuel →
     ∃ r st', deleteEmptyFolders this fuel d st = (r, st')
       ∧ r ≠ OutOfFuel ∧ folders (vault st') ⊆ folders (vault st)) →
  folderNamesOk maxDepth (vault st) →
  (∀ g, g ∈ gs → nesting maxDepth (stripDotSlash g) < fuel) →
  ∃ r st', forEach gs (deleteEmptyFolders this fuel) st = (r, st')
    ∧ r ≠ OutOfFuel ∧ folders (vault st') ⊆ folders (vault st).
Proof.
  intros Hcall. revert st. induction gs as [|g gs IH]; intros st Hok Hgs.
  - exists (Ok ()), st. by repeat split.
  - destruct (Hcall g st Hok) as (r1 & st1 & Hrun & Hr1 & Hsub1); [apply Hgs; by left|].
    simpl. unfold mbind, M_bind. rewrite Hrun.
    destruct r1 as [[]| |]; [|by eauto|done].
    destruct (IH st1) as (r2 & st2 & Hrest & Hr2 & Hsub2).
    { by eapply folderNamesOk_subseteq. }
    { intros g' Hg'. apply Hgs. by right. }
    exists r2, st2. repeat split; [done | done | set_solver].
Qed.

Lemma deleteEmptyFolders_enough fuel d st :
  folderNamesOk maxDepth (vault st) →
  nesting maxDepth (stripDotSlash d) < fuel →
  ∃ r st', deleteEmptyFolders this fuel d st = (r, st')
    ∧ r ≠ OutOfFuel ∧ folders (vault st') ⊆ folders (vault st).
Proof.
  revert d st. induction fuel as [|fuel IH]; intros d st Hok Hfuel; [lia|].
  rewrite deleteEmptyFolders_unfold.
  destruct (isPathIgnored this d); [exists (Ok ()), st; by repeat split|].
  set (d' := stripDotSlash d) in *.
  destruct (forEach_enough fuel (Host.listSafe (vault st) d').2 st IH Hok)
    as (r1 & st1 & Hsub & Hr1 & Hf1).
  { intros g Hg. unfold Host.listSafe in Hg.
    destruct (Host.folderExists (vault st) d'); [|by apply elem_of_nil in Hg].
    simpl in Hg. pose proof (nesting_child _ _ _ Hok Hg) as Hlt.
    apply elem_of_childFolders in Hg as [Hg _]. destruct (Hok g Hg) as (_ & Hdot & _).
    rewrite (stripDotSlash_id _ Hdot). lia. }
  run. rewrite Hsub. destruct r1 as [[]| |]; [|by eauto|done].
  destruct (_ && _); [|by eauto].
  destruct (Host.exists_ (vault st1) d'); [|exists (Ok ()); eexists; by repeat split].
  destruct (adapterRmdir (app this) d' _) as [r2 st2] eqn:Hrm.
  apply adapterRmdir_folders in Hrm as [Hr2 Hf2]. simpl in Hf2.
  destruct r2 as [[]|e|]; [| |done].
  - exists (Ok ()), st2. repeat split; [done | set_solver].
  - destruct (Host.exists_ (vault st2) d'); eexists _, st2;
      (repeat split; [done | set_solver]).
Qed.

End Termination.

(** [deleteEmptyFolders] returns, normally or with an error of the host, as
    soon as the fuel exceeds the depth of the deepest folder by two. *)
Theorem deleteEmptyFolders_terminates (this : FilesHandler) (maxDepth : nat)
    (dirName : string) (st : State) :
  folderNamesOk maxDepth (vault st) →
  ∃ r st', deleteEmptyFolders this (maxDepth + 2) dirName st = (r, st') ∧ r ≠ OutOfFuel.
Proof.
  intros Hok.
  destruct (deleteEmptyFolders_enough this maxDepth (maxDepth + 2) dirName st Hok)
    as (r & st' & Hrun & Hr & _); [|by eauto].
  unfold nesting. destruct (Path.isRoot _); lia.
Qed.

Example deleteEmptyFolders_terminates_demo :
  let this := Demo.demoHandler [] [] false in
  let st := Demo.startIn (Demo.mkDemoVault [("N.md", "text")] ["P"; "P/E"]) in
  folderNamesOk 2 (vault st)
  ∧ ∃ r st', deleteEmptyFolders this 4 "/" st = (r, st') ∧ r ≠ OutOfFuel.
Proof.
  intros this st.
  assert (folderNamesOk 2 (vault st)) as Hok.
  { intros g Hg. simpl in Hg. set_unfold in Hg.
    destruct Hg as [-> | [-> | []]]; repeat split; vm_compute; lia. }
  split; [exact Hok|]. by apply (deleteEmptyFolders_terminates this 2 "/" st).
Qed.

(** The scenario of section 8: [A/note.md], whose attachment folder is the
    subfolder named after it, has become [B/note.md].  The cascade moves
    [A/note/img.png] to [B/note/img.png], removes the folders [A/note] and [A]
    that it leaves empty, and ends with an empty rename map. *)
Example handleRename_scenario :
  let st := Demo.startIn (Demo.mkDemoVault
              [("B/note.md", "![](img.png)"); ("A/note/img.png", "PNG")]
              ["A"; "A/note"; "B"]) in
  Demo.observe (handleRename (Demo.demoApp [] []) (TFile "B/note.md") "A/note.md" st)
  = (Ok (), [("B/note/img.png", "PNG"); ("B/note.md", "![](img.png)")], ["B/note"; "B"], []).
Proof. vm_compute. reflexivity. Qed.
